(** * Moderation dashboard: the dual-queue store of [src/App.js]

    A shallow embedding of the [App] component's state, of its asynchronous
    event handlers ([fetchItems], [initializeData], [handleScroll],
    [handleMarkReviewed], [handleDelete], [handleTabChange]) and of
    [formatEntityType], together with an event-loop semantics in which the
    moderation client's promises settle in any order. *)

From Stdlib Require Import List String Bool Arith ZArith Lia.
Import ListNotations.
Open Scope string_scope.
Open Scope list_scope.

(** ** Data model *)

(** A continuation cursor as JavaScript holds it: a string, or [null] /
    [undefined] ([None]). *)
Definition Cursor := option string.

(** JavaScript truthiness of a cursor: [null], [undefined] and the empty
    string are falsy. *)
Definition truthy (cursor : Cursor) : bool :=
  match cursor with
  | Some s => negb (s =? "")
  | None => false
  end.

(** The fields of a review-queue item that the component reads. *)
Record Item : Type := mkItem {
  id : string;
  entity_type : string;
  reviewed_by : option string;
  texts : list string
}.

(** The eight [useState] cells of [App]. *)
Record State : Type := mkState {
  reviewQueueItems : list Item;
  reviewedItems : list Item;
  activeTab : nat;
  selectedItem : option Item;
  isModalOpen : bool;
  reviewQueueCursor : Cursor;
  reviewedCursor : Cursor;
  isLoading : bool
}.

(** [useState([])], [useState(0)], [useState(null)], [useState(false)]. *)
Definition initialState : State :=
  {| reviewQueueItems := [];
     reviewedItems := [];
     activeTab := 0;
     selectedItem := None;
     isModalOpen := false;
     reviewQueueCursor := None;
     reviewedCursor := None;
     isLoading := false |}.

(** The argument of a React state setter: a new value, or an updater applied
    to the value the cell holds when the update is processed. *)
Inductive SetStateAction (A : Type) : Type :=
| Value (v : A)
| Updater (f : A -> A).
Arguments Value {A} v.
Arguments Updater {A} f.

Definition applyAction {A : Type} (a : SetStateAction A) (prev : A) : A :=
  match a with
  | Value v => v
  | Updater f => f prev
  end.

Definition setReviewQueueItems (a : SetStateAction (list Item)) (st : State) : State :=
  {| reviewQueueItems := applyAction a (reviewQueueItems st);
     reviewedItems := reviewedItems st;
     activeTab := activeTab st;
     selectedItem := selectedItem st;
     isModalOpen := isModalOpen st;
     reviewQueueCursor := reviewQueueCursor st;
     reviewedCursor := reviewedCursor st;
     isLoading := isLoading st |}.

Definition setReviewedItems (a : SetStateAction (list Item)) (st : State) : State :=
  {| reviewQueueItems := reviewQueueItems st;
     reviewedItems := applyAction a (reviewedItems st);
     activeTab := activeTab st;
     selectedItem := selectedItem st;
     isModalOpen := isModalOpen st;
     reviewQueueCursor := reviewQueueCursor st;
     reviewedCursor := reviewedCursor st;
     isLoading := isLoading st |}.

Definition setActiveTab (a : SetStateAction nat) (st : State) : State :=
  {| reviewQueueItems := reviewQueueItems st;
     reviewedItems := reviewedItems st;
     activeTab := applyAction a (activeTab st);
     selectedItem := selectedItem st;
     isModalOpen := isModalOpen st;
     reviewQueueCursor := reviewQueueCursor st;
     reviewedCursor := reviewedCursor st;
     isLoading := isLoading st |}.

Definition setSelectedItem (a : SetStateAction (option Item)) (st : State) : State :=
  {| reviewQueueItems := reviewQueueItems st;
     reviewedItems := reviewedItems st;
     activeTab := activeTab st;
     selectedItem := applyAction a (selectedItem st);
     isModalOpen := isModalOpen st;
     reviewQueueCursor := reviewQueueCursor st;
     reviewedCursor := reviewedCursor st;
     isLoading := isLoading st |}.

Definition setIsModalOpen (a : SetStateAction bool) (st : State) : State :=
  {| reviewQueueItems := reviewQueueItems st;
     reviewedItems := reviewedItems st;
     activeTab := activeTab st;
     selectedItem := selectedItem st;
     isModalOpen := applyAction a (isModalOpen st);
     reviewQueueCursor := reviewQueueCursor st;
     reviewedCursor := reviewedCursor st;
     isLoading := isLoading st |}.

Definition setReviewQueueCursor (a : SetStateAction Cursor) (st : State) : State :=
  {| reviewQueueItems := reviewQueueItems st;
     reviewedItems := reviewedItems st;
     activeTab := activeTab st;
     selectedItem := selectedItem st;
     isModalOpen := isModalOpen st;
     reviewQueueCursor := applyAction a (reviewQueueCursor st);
     reviewedCursor := reviewedCursor st;
     isLoading := isLoading st |}.

Definition setReviewedCursor (a : SetStateAction Cursor) (st : State) : State :=
  {| reviewQueueItems := reviewQueueItems st;
     reviewedItems := reviewedItems st;
     activeTab := activeTab st;
     selectedItem := selectedItem st;
     isModalOpen := isModalOpen st;
     reviewQueueCursor := reviewQueueCursor st;
     reviewedCursor := applyAction a (reviewedCursor st);
     isLoading := isLoading st |}.

Definition setIsLoading (a : SetStateAction bool) (st : State) : State :=
  {| reviewQueueItems := reviewQueueItems st;
     reviewedItems := reviewedItems st;
     activeTab := activeTab st;
     selectedItem := selectedItem st;
     isModalOpen := isModalOpen st;
     reviewQueueCursor := reviewQueueCursor st;
     reviewedCursor := reviewedCursor st;
     isLoading := applyAction a (isLoading st) |}.

(** ** The moderation client *)

(** First argument of [client.moderation.queryReviewQueue]. *)
Record Filter : Type := mkFilter {
  f_entity_type : string;
  f_reviewed : bool;
  f_has_text : bool
}.

(** Third argument of [queryReviewQueue]: [{ next, limit }]. *)
Record Pagination : Type := mkPagination {
  p_next : Cursor;
  p_limit : nat
}.

(** What a resolved [queryReviewQueue] promise carries. *)
Record Response : Type := mkResponse {
  items : list Item;
  next : Cursor
}.

(** Third argument of [submitAction] for a deletion:
    [{ delete_message: { hard_delete } }]. *)
Record DeleteMessage : Type := mkDeleteMessage {
  hard_delete : bool
}.

(** How a promise settles. *)
Inductive Outcome (A : Type) : Type :=
| Fulfilled (v : A)
| Rejected.
Arguments Fulfilled {A} v.
Arguments Rejected {A}.

(** What the component writes on the console. *)
Inductive LogEntry : Type :=
| LogFetched (count : nat) (nextCursor : Cursor)
| LogLoadingMore (cursor : Cursor)
| ErrFetching
| ErrMarking
| ErrDeleting
| UnhandledRejection.

(** ** Asynchronous handler bodies

    The body of an [async] function: state-setter calls, console output,
    calls of other async functions ([Spawn]), and [await]s of the client's
    promises, whose continuation receives the way the promise settled.
    A body never reads the store: what a handler reads is the value of the
    [useState] cells in the render that created it, which is an argument of
    the handler below. *)
Inductive Task : Type :=
| Skip
| Throw
| SetState (u : State -> State) (k : Task)
| Log (entry : LogEntry) (k : Task)
| Spawn (child : Task) (k : Task)
| AwaitConnect (k : Outcome unit -> Task)
| AwaitQuery (filter : Filter) (sort : list string) (options : Pagination)
             (k : Outcome Response -> Task)
| AwaitSubmit (action : string) (itemId : string) (payload : option DeleteMessage)
              (k : Outcome unit -> Task).

(** [t1 ;; t2]: statement sequencing; an exception skips [t2]. *)
Fixpoint seq (t1 t2 : Task) : Task :=
  match t1 with
  | Skip => t2
  | Throw => Throw
  | SetState u k => SetState u (seq k t2)
  | Log e k => Log e (seq k t2)
  | Spawn c k => Spawn c (seq k t2)
  | AwaitConnect k => AwaitConnect (fun o => seq (k o) t2)
  | AwaitQuery f s p k => AwaitQuery f s p (fun o => seq (k o) t2)
  | AwaitSubmit a i p k => AwaitSubmit a i p (fun o => seq (k o) t2)
  end.

(** [try { body } catch (error) { handler }]. *)
Fixpoint try_catch (body handler : Task) : Task :=
  match body with
  | Skip => Skip
  | Throw => handler
  | SetState u k => SetState u (try_catch k handler)
  | Log e k => Log e (try_catch k handler)
  | Spawn c k => Spawn c (try_catch k handler)
  | AwaitConnect k => AwaitConnect (fun o => try_catch (k o) handler)
  | AwaitQuery f s p k => AwaitQuery f s p (fun o => try_catch (k o) handler)
  | AwaitSubmit a i p k => AwaitSubmit a i p (fun o => try_catch (k o) handler)
  end.

(** [try { body } finally { finalizer }]: the finalizer runs on both exits,
    and an exception of the body is rethrown after it. *)
Fixpoint try_finally (body finalizer : Task) : Task :=
  match body with
  | Skip => finalizer
  | Throw => seq finalizer Throw
  | SetState u k => SetState u (try_finally k finalizer)
  | Log e k => Log e (try_finally k finalizer)
  | Spawn c k => Spawn c (try_finally k finalizer)
  | AwaitConnect k => AwaitConnect (fun o => try_finally (k o) finalizer)
  | AwaitQuery f s p k => AwaitQuery f s p (fun o => try_finally (k o) finalizer)
  | AwaitSubmit a i p k => AwaitSubmit a i p (fun o => try_finally (k o) finalizer)
  end.

Declare Scope task_scope.
Delimit Scope task_scope with task.
Bind Scope task_scope with Task.
Notation "t1 ;; t2" := (seq t1 t2)
  (at level 61, right associativity) : task_scope.
Open Scope task_scope.

Definition set_state (u : State -> State) : Task := SetState u Skip.
Definition console (entry : LogEntry) : Task := Log entry Skip.

(** [await client.connectUser(...)]: a rejected promise throws. *)
Definition connectUser : Task :=
  AwaitConnect (fun o => match o with Fulfilled _ => Skip | Rejected => Throw end).

(** [const response = await client.moderation.queryReviewQueue(f, s, p); rest]. *)
Definition queryReviewQueue (f : Filter) (s : list string) (p : Pagination)
    (rest : Response -> Task) : Task :=
  AwaitQuery f s p
    (fun o => match o with Fulfilled response => rest response | Rejected => Throw end).

(** [await client.moderation.submitAction(action, itemId, payload)]. *)
Definition submitAction (action itemId : string) (payload : option DeleteMessage) : Task :=
  AwaitSubmit action itemId payload
    (fun o => match o with Fulfilled _ => Skip | Rejected => Throw end).

(** ** The handlers of [App] *)

(** [fetchItems], lines 31-62. *)
Definition fetchItems (isReviewed : bool) (cursor : Cursor) : Task :=
  try_finally
    (try_catch
       (set_state (setIsLoading (Value true)) ;;
        queryReviewQueue
          {| f_entity_type := "stream:chat:v1:message";
             f_reviewed := isReviewed;
             f_has_text := true |}
          []
          {| p_next := cursor; p_limit := 25 |}
          (fun response =>
             (if isReviewed then
                set_state (setReviewedItems (Updater (fun prev =>
                  if truthy cursor then prev ++ items response else items response))) ;;
                set_state (setReviewedCursor (Value (next response)))
              else
                set_state (setReviewQueueItems (Updater (fun prev =>
                  if truthy cursor then prev ++ items response else items response))) ;;
                set_state (setReviewQueueCursor (Value (next response)))) ;;
             console (LogFetched (List.length (items response)) (next response))))
       (console ErrFetching))
    (set_state (setIsLoading (Value false))).

(** [initializeData], lines 65-74: both first pages are requested before
    either answer is awaited ([Promise.all]). *)
Definition initializeData : Task :=
  connectUser ;;
  Spawn (fetchItems false None) (Spawn (fetchItems true None) Skip).

(** What [handleScroll] reads from the window and the document. *)
Record Viewport : Type := mkViewport {
  innerHeight : Z;
  scrollY : Z;
  scrollHeight : Z
}.

(** The debounced body of [handleScroll], lines 79-94, closed over the
    state cells of the render that created it. *)
Definition handleScroll (rendered : State) (window : Viewport) : Task :=
  if isLoading rendered then Skip
  else
    let scrollPosition := (innerHeight window + scrollY window)%Z in
    let scrollThreshold := (scrollHeight window - 200)%Z in
    if (scrollPosition >? scrollThreshold)%Z then
      let isReviewedTab := (activeTab rendered =? 1)%nat in
      let currentCursor :=
        if isReviewedTab then reviewedCursor rendered else reviewQueueCursor rendered in
      if truthy currentCursor then
        console (LogLoadingMore currentCursor) ;;
        fetchItems isReviewedTab currentCursor
      else Skip
    else Skip.

(** [handleMarkReviewed], lines 239-251.  [reviewQueueItems] is the array of
    the render that created the handler; the two setters receive updaters. *)
Definition handleMarkReviewed (rendered : State) (itemId : string) : Task :=
  try_catch
    (submitAction "mark_reviewed" itemId None ;;
     let itemToMove :=
       find (fun item => id item =? itemId) (reviewQueueItems rendered) in
     set_state (setReviewQueueItems (Updater (fun prev =>
       filter (fun item => negb (id item =? itemId)) prev))) ;;
     match itemToMove with
     | Some item => set_state (setReviewedItems (Updater (fun prev => item :: prev)))
     | None => Skip
     end)
    (console ErrMarking).

(** [handleDelete], lines 253-265. *)
Definition handleDelete (itemId : string) : Task :=
  try_catch
    (submitAction "delete_message" itemId (Some {| hard_delete := false |}) ;;
     set_state (setReviewQueueItems (Updater (fun prev =>
       filter (fun item => negb (id item =? itemId)) prev))))
    (console ErrDeleting).

(** [handleTabChange], lines 411-414. *)
Definition handleTabChange (activeIndex : nat) : Task :=
  set_state (setActiveTab (Value activeIndex)).

(** The [onClick] of an item's segment, lines 284-287. *)
Definition handleSelect (item : Item) : Task :=
  set_state (setSelectedItem (Value (Some item))) ;;
  set_state (setIsModalOpen (Value true)).

(** The [onClose] of the detail modal. *)
Definition handleClose : Task :=
  set_state (setIsModalOpen (Value false)) ;;
  set_state (setSelectedItem (Value None)).

(** [formatEntityType], lines 267-278. *)
Definition formatEntityType (entityType : string) : string :=
  if entityType =? "stream:chat:v1:message" then "Chat Message"
  else if entityType =? "stream:feeds:v2:activity" then "Feeds Activity"
  else if entityType =? "stream:feeds:v2:reaction" then "Feeds Reaction"
  else entityType.

(** ** Event loop

    Running a body up to its first [await]s changes the store, writes on the
    console and leaves promises in flight; the rest of the body runs when a
    promise settles, on the store as it is then. *)

(** A promise of the client the component is waiting for, with the rest of
    the body that awaits it. *)
Inductive Pending : Type :=
| PendConnect (k : Outcome unit -> Task)
| PendQuery (filter : Filter) (sort : list string) (options : Pagination)
            (k : Outcome Response -> Task)
| PendSubmit (action : string) (itemId : string) (payload : option DeleteMessage)
             (k : Outcome unit -> Task).

(** The store after the synchronous part of a body. *)
Fixpoint effect (t : Task) (st : State) : State :=
  match t with
  | Skip | Throw => st
  | SetState u k => effect k (u st)
  | Log _ k => effect k st
  | Spawn child k => effect k (effect child st)
  | AwaitConnect _ | AwaitQuery _ _ _ _ | AwaitSubmit _ _ _ _ => st
  end.

(** The client calls the synchronous part of a body issues. *)
Fixpoint suspended (t : Task) : list Pending :=
  match t with
  | Skip | Throw => []
  | SetState _ k | Log _ k => suspended k
  | Spawn child k => suspended child ++ suspended k
  | AwaitConnect k => [PendConnect k]
  | AwaitQuery f s p k => [PendQuery f s p k]
  | AwaitSubmit a i p k => [PendSubmit a i p k]
  end.

(** The console output of the synchronous part of a body; an exception
    nobody catches ends as an unhandled rejection. *)
Fixpoint output (t : Task) : list LogEntry :=
  match t with
  | Skip => []
  | Throw => [UnhandledRejection]
  | SetState _ k => output k
  | Log e k => e :: output k
  | Spawn child k => output child ++ output k
  | AwaitConnect _ | AwaitQuery _ _ _ _ | AwaitSubmit _ _ _ _ => []
  end.

Record Config : Type := mkConfig {
  store : State;
  inflight : list Pending;
  consoleOut : list LogEntry
}.

Definition initialConfig : Config :=
  {| store := initialState; inflight := []; consoleOut := [] |}.

(** Call an async function: its synchronous part runs at once. *)
Definition start (t : Task) (c : Config) : Config :=
  {| store := effect t (store c);
     inflight := inflight c ++ suspended t;
     consoleOut := consoleOut c ++ output t |}.

(** How the client answers one of its three calls. *)
Inductive Reply : Type :=
| ConnectReply (o : Outcome unit)
| QueryReply (o : Outcome Response)
| SubmitReply (o : Outcome unit).

(** The rest of the body once its promise has settled; [None] when the
    reply is not one the awaited call can produce. *)
Definition resume (p : Pending) (r : Reply) : option Task :=
  match p, r with
  | PendConnect k, ConnectReply o => Some (k o)
  | PendQuery _ _ _ k, QueryReply o => Some (k o)
  | PendSubmit _ _ _ k, SubmitReply o => Some (k o)
  | _, _ => None
  end.

Definition remove_nth {A : Type} (n : nat) (l : list A) : list A :=
  firstn n l ++ skipn (S n) l.

(** The [n]-th promise in flight settles with reply [r]. *)
Definition settle (n : nat) (r : Reply) (c : Config) : option Config :=
  match nth_error (inflight c) n with
  | None => None
  | Some p =>
      match resume p r with
      | None => None
      | Some t =>
          Some (start t {| store := store c;
                           inflight := remove_nth n (inflight c);
                           consoleOut := consoleOut c |})
      end
  end.

(** What can happen to the mounted component.  Every handler is the one of
    the latest render, so it is closed over the current store. *)
Inductive Event : Type :=
| Mount
| Scroll (window : Viewport)
| ClickMarkReviewed (itemId : string)
| ClickDelete (itemId : string)
| TabChange (activeIndex : nat)
| Select (item : Item)
| CloseDetail
| Settle (n : nat) (r : Reply).

Definition step (c : Config) (ev : Event) : option Config :=
  match ev with
  | Mount => Some (start initializeData c)
  | Scroll window => Some (start (handleScroll (store c) window) c)
  | ClickMarkReviewed itemId => Some (start (handleMarkReviewed (store c) itemId) c)
  | ClickDelete itemId => Some (start (handleDelete itemId) c)
  | TabChange activeIndex => Some (start (handleTabChange activeIndex) c)
  | Select item => Some (start (handleSelect item) c)
  | CloseDetail => Some (start handleClose c)
  | Settle n r => settle n r c
  end.

Fixpoint run (c : Config) (evs : list Event) : option Config :=
  match evs with
  | [] => Some c
  | ev :: rest =>
      match step c ev with
      | Some c' => run c' rest
      | None => None
      end
  end.

(** The configurations the component can be in after mounting. *)
Definition reachable (c : Config) : Prop :=
  exists evs, run initialConfig evs = Some c.

(** ** Observations on the store *)

Definition ids (l : list Item) : list string := map id l.

(** The collection and the cursor of a queue, selected as [fetchItems]
    selects them: [true] is the reviewed queue. *)
Definition queueItems (isReviewed : bool) (st : State) : list Item :=
  if isReviewed then reviewedItems st else reviewQueueItems st.

Definition queueCursor (isReviewed : bool) (st : State) : Cursor :=
  if isReviewed then reviewedCursor st else reviewQueueCursor st.

(** Number of items across both queues. *)
Definition totalItems (st : State) : nat :=
  List.length (reviewQueueItems st) + List.length (reviewedItems st).

(** Every id across both queues, pending queue first. *)
Definition allIds (st : State) : list string :=
  ids (reviewQueueItems st) ++ ids (reviewedItems st).

(** The four cells a failed call must leave alone. *)
Definition queues (st : State)
  : list Item * list Item * Cursor * Cursor :=
  (reviewQueueItems st, reviewedItems st, reviewQueueCursor st, reviewedCursor st).

(** ** The promises the handlers wait for *)

(** The one promise [fetchItems] waits for. *)
Definition fetchPending (isReviewed : bool) (cursor : Cursor) : Pending :=
  hd (PendConnect (fun _ => Skip)) (suspended (fetchItems isReviewed cursor)).

(** The promise [initializeData] waits for first. *)
Definition connectPending : Pending :=
  hd (PendConnect (fun _ => Skip)) (suspended initializeData).

(** The promise [handleMarkReviewed] waits for. *)
Definition markPending (rendered : State) (itemId : string) : Pending :=
  hd (PendConnect (fun _ => Skip)) (suspended (handleMarkReviewed rendered itemId)).

(** The promise [handleDelete] waits for. *)
Definition deletePending (itemId : string) : Pending :=
  hd (PendConnect (fun _ => Skip)) (suspended (handleDelete itemId)).

(** The promises the component can be waiting for. *)
Inductive fromApp : Pending -> Prop :=
| fromApp_connect : fromApp connectPending
| fromApp_fetch (isReviewed : bool) (cursor : Cursor) :
    fromApp (fetchPending isReviewed cursor)
| fromApp_mark (rendered : State) (itemId : string) :
    fromApp (markPending rendered itemId)
| fromApp_delete (itemId : string) :
    fromApp (deletePending itemId).

(** The store once [fetchItems] has run to its end on store [st], by the
    way its query settled. *)
Definition fetched (isReviewed : bool) (cursor : Cursor) (o : Outcome Response)
    (st : State) : State :=
  match resume (fetchPending isReviewed cursor) (QueryReply o) with
  | Some k => effect k st
  | None => st
  end.

(** The store once [handleMarkReviewed], created by render [rendered], has
    run to its end on store [st]. *)
Definition marked (rendered : State) (itemId : string) (o : Outcome unit)
    (st : State) : State :=
  match resume (markPending rendered itemId) (SubmitReply o) with
  | Some k => effect k st
  | None => st
  end.

(** The store once [handleDelete] has run to its end on store [st]. *)
Definition deleted (itemId : string) (o : Outcome unit) (st : State) : State :=
  match resume (deletePending itemId) (SubmitReply o) with
  | Some k => effect k st
  | None => st
  end.

(** A query for the given queue. *)
Definition isFetchFor (isReviewed : bool) (p : Pending) : bool :=
  match p with
  | PendQuery f _ _ _ => Bool.eqb (f_reviewed f) isReviewed
  | _ => false
  end.


(** The scroll evaluation of a render with store [st] requests a page of
    the given queue. *)
Definition scrollFetches (isReviewed : bool) (st : State) (window : Viewport) : bool :=
  existsb (isFetchFor isReviewed) (suspended (handleScroll st window)).



Definition isMount (ev : Event) : bool :=
  match ev with
  | Mount => true
  | _ => false
  end.

(** ** Operations completed one at a time

    A store operation whose promise settles before anything else happens,
    called from the latest render. *)
Inductive Operation : Type :=
| OpFetch (isReviewed : bool) (cursor : Cursor) (o : Outcome Response)
| OpMarkReviewed (itemId : string) (o : Outcome unit)
| OpDelete (itemId : string) (o : Outcome unit).

Definition idle (st : State) : Config :=
  {| store := st; inflight := []; consoleOut := [] |}.

Definition perform (st : State) (op : Operation) : option State :=
  match op with
  | OpFetch isReviewed cursor o =>
      option_map store
        (settle 0 (QueryReply o) (start (fetchItems isReviewed cursor) (idle st)))
  | OpMarkReviewed itemId o =>
      option_map store
        (settle 0 (SubmitReply o) (start (handleMarkReviewed st itemId) (idle st)))
  | OpDelete itemId o =>
      option_map store
        (settle 0 (SubmitReply o) (start (handleDelete itemId) (idle st)))
  end.

(** The client keeps its pagination contract: the ids of a returned page are
    distinct from each other and from the ids the store keeps, which are
    those of the other queue and, when the page is appended, those of the
    queue itself. *)
Definition freshPage (st : State) (op : Operation) : Prop :=
  match op with
  | OpFetch isReviewed cursor (Fulfilled response) =>
      NoDup (ids (items response))
      /\ forall i, In i (ids (items response)) ->
           ~ In i (ids (queueItems (negb isReviewed) st))
           /\ (truthy cursor = true -> ~ In i (ids (queueItems isReviewed st)))
  | _ => True
  end.

(** The stores reached from the initial one by operations completed one at
    a time against a client that keeps its pagination contract. *)
Inductive orderly : State -> Prop :=
| orderly_initial : orderly initialState
| orderly_perform (st st' : State) (op : Operation) :
    orderly st -> freshPage st op -> perform st op = Some st' -> orderly st'.

(** ** Sample data *)

Definition message (itemId text : string) : Item :=
  {| id := itemId;
     entity_type := "stream:chat:v1:message";
     reviewed_by := None;
     texts := [text] |}.

(** A window scrolled to within 200 px of the end of the document. *)
Definition nearBottom : Viewport :=
  {| innerHeight := 800; scrollY := 1500; scrollHeight := 2400 |}.

(** Both first pages are requested; the pending page arrives, the moderator
    scrolls down and the second pending page is requested; the reviewed page
    arrives and clears the loading flag while that request is in flight; the
    moderator scrolls again and the same page is requested a second time;
    both requests are answered with the same page. *)
Definition overlappingScrollFetches : list Event :=
  [ Mount;
    Settle 0 (ConnectReply (Fulfilled tt));
    Settle 0 (QueryReply (Fulfilled
      {| items := [message "m1" "first"]; next := Some "c1" |}));
    Scroll nearBottom;
    Settle 0 (QueryReply (Fulfilled {| items := []; next := None |}));
    Scroll nearBottom;
    Settle 0 (QueryReply (Fulfilled
      {| items := [message "m2" "second"]; next := None |}));
    Settle 0 (QueryReply (Fulfilled
      {| items := [message "m2" "second"]; next := None |})) ].

(** Both first pages arrive, and the same item is on both: it was marked
    reviewed on the server between the two queries. *)
Definition reviewedBetweenFirstPages : list Event :=
  [ Mount;
    Settle 0 (ConnectReply (Fulfilled tt));
    Settle 0 (QueryReply (Fulfilled
      {| items := [message "m1" "first"]; next := None |}));
    Settle 0 (QueryReply (Fulfilled
      {| items := [message "m1" "first"]; next := None |})) ].

(** The first pending page arrives and its item is marked reviewed. *)
Definition oneItemReviewed : State :=
  {| reviewQueueItems := [];
     reviewedItems := [message "m1" "first"];
     activeTab := 0;
     selectedItem := None;
     isModalOpen := false;
     reviewQueueCursor := None;
     reviewedCursor := None;
     isLoading := false |}.

(** As [overlappingScrollFetches] up to the first answer to the repeated
    request, which is the last page. *)
Definition untilLastPage : list Event :=
  [ Mount;
    Settle 0 (ConnectReply (Fulfilled tt));
    Settle 0 (QueryReply (Fulfilled
      {| items := [message "m1" "first"]; next := Some "c1" |}));
    Scroll nearBottom;
    Settle 0 (QueryReply (Fulfilled {| items := []; next := None |}));
    Scroll nearBottom;
    Settle 0 (QueryReply (Fulfilled
      {| items := [message "m2" "second"]; next := None |})) ].

(** The second answer to the repeated request comes after a further item
    was flagged, and carries a cursor. *)
Definition thenLaterAnswer : list Event :=
  [ Settle 0 (QueryReply (Fulfilled
      {| items := [message "m2" "second"]; next := Some "c2" |})) ].



Definition configAfter (evs : list Event) (c : Config) : Config :=
  match run c evs with
  | Some c' => c'
  | None => c
  end.

(** No request overlaps another, but the second pending page starts with
    the last item of the first: the server's list moved between the two
    queries. *)
Definition overlappingPages : list Event :=
  [ Mount;
    Settle 0 (ConnectReply (Fulfilled tt));
    Settle 0 (QueryReply (Fulfilled
      {| items := [message "m1" "first"; message "m2" "second"];
         next := Some "c1" |}));
    Settle 0 (QueryReply (Fulfilled {| items := []; next := None |}));
    Scroll nearBottom;
    Settle 0 (QueryReply (Fulfilled
      {| items := [message "m2" "second"]; next := None |})) ].

(** The moderator clicks "Mark reviewed" twice on the same item before the
    first submission is acknowledged. *)
Definition doubleClick : list Event :=
  [ Mount;
    Settle 0 (ConnectReply (Fulfilled tt));
    Settle 0 (QueryReply (Fulfilled
      {| items := [message "m1" "first"]; next := None |}));
    Settle 0 (QueryReply (Fulfilled {| items := []; next := None |}));
    ClickMarkReviewed "m1";
    ClickMarkReviewed "m1";
    Settle 0 (SubmitReply (Fulfilled tt));
    Settle 0 (SubmitReply (Fulfilled tt)) ].

(** The store [overlappingScrollFetches] and [overlappingPages] end in. *)
Definition duplicatedStore : State :=
  {| reviewQueueItems :=
       [message "m1" "first"; message "m2" "second"; message "m2" "second"];
     reviewedItems := [];
     activeTab := 0;
     selectedItem := None;
     isModalOpen := false;
     reviewQueueCursor := None;
     reviewedCursor := None;
     isLoading := false |}.

(** ** Rendering *)

(** What [renderTextPreview], lines 106-122, returns: the fallback string,
    or the first text followed, when there are more, by the ["+n more"]
    badge. *)
Inductive TextPreview : Type :=
| NoTextAvailable
| FirstText (first : string) (more : option nat).

(** [renderTextPreview]; [item.moderation_payload?.texts] may be
    [undefined] ([None]). *)
Definition renderTextPreview (texts : option (list string)) : TextPreview :=
  match texts with
  | None => NoTextAvailable
  | Some texts =>
      if (List.length texts =? 0)%nat then NoTextAvailable
      else
        FirstText (nth 0 texts "")
                  (if (1 <? List.length texts)%nat
                   then Some (List.length texts - 1)
                   else None)
  end.

(** The two notes a tab pane can show under its list, lines 448-457 and
    466-475. *)
Inductive Footer : Type :=
| LoadingMoreItems
| NoMoreItemsToLoad.

(** The notes of the "Needs Review" pane. *)
Definition needsReviewFooters (st : State) : list Footer :=
  (if isLoading st then [LoadingMoreItems] else [])
  ++ (if negb (isLoading st)
         && negb (truthy (reviewQueueCursor st))
         && (0 <? List.length (reviewQueueItems st))%nat
      then [NoMoreItemsToLoad] else []).

(** The notes of the "Reviewed" pane. *)
Definition reviewedFooters (st : State) : list Footer :=
  (if isLoading st then [LoadingMoreItems] else [])
  ++ (if negb (isLoading st)
         && negb (truthy (reviewedCursor st))
         && (0 <? List.length (reviewedItems st))%nat
      then [NoMoreItemsToLoad] else []).

(** ** Further observations *)

(** A [queryReviewQueue] promise. *)
Definition isQuery (p : Pending) : bool :=
  match p with
  | PendQuery _ _ _ _ => true
  | _ => false
  end.

(** The loading flag is up only while a query is in flight. *)
Definition flagCovered (c : Config) : Prop :=
  isLoading (store c) = true -> existsb isQuery (inflight c) = true.

(** The detail modal is open exactly when an item is selected. *)
Definition modalConsistent (st : State) : Prop :=
  isModalOpen st = match selectedItem st with Some _ => true | None => false end.

(** Operations completed one at a time, in sequence. *)
Fixpoint performAll (st : State) (ops : list Operation) : option State :=
  match ops with
  | [] => Some st
  | op :: rest =>
      match perform st op with
      | Some st' => performAll st' rest
      | None => None
      end
  end.

(** A first-page fetch of a queue followed by fetches of further pages, each
    with the cursor it was requested with. *)
Definition pagedFetches (isReviewed : bool) (first : Response)
    (pages : list (Cursor * Response)) : list Operation :=
  OpFetch isReviewed None (Fulfilled first)
  :: map (fun page => OpFetch isReviewed (fst page) (Fulfilled (snd page))) pages.

(** ** Lemmas on the event loop *)

Lemma nth_error_issued {A : Type} (l : list A) (p : A) :
  nth_error (l ++ [p]) (List.length l) = Some p.
Proof.
  induction l as [|a l IH]; [reflexivity | exact IH].
Qed.

Lemma remove_nth_issued {A : Type} (l : list A) (p : A) :
  remove_nth (List.length l) (l ++ [p]) = l.
Proof.
  unfold remove_nth.
  induction l as [|a l IH]; [reflexivity |].
  cbn [List.length app firstn skipn]. cbn [skipn] in IH.
  now rewrite IH.
Qed.

(** Settling the promise a body has just issued runs the rest of the body
    on the store the synchronous part left. *)
Lemma settle_issued (c : Config) (t k : Task) (p : Pending) (r : Reply) :
  suspended t = [p] ->
  resume p r = Some k ->
  settle (List.length (inflight c)) r (start t c)
  = Some (start k {| store := effect t (store c);
                     inflight := inflight c;
                     consoleOut := consoleOut c ++ output t |}).
Proof.
  intros Hs Hr. unfold settle, start. cbn [inflight store consoleOut].
  rewrite Hs, nth_error_issued, Hr, remove_nth_issued. reflexivity.
Qed.

Lemma suspended_fetchItems (isReviewed : bool) (cursor : Cursor) :
  suspended (fetchItems isReviewed cursor) = [fetchPending isReviewed cursor].
Proof. reflexivity. Qed.

Lemma settle_fetchPending (c : Config) (n : nat) (isReviewed : bool)
    (cursor : Cursor) (o : Outcome Response) :
  nth_error (inflight c) n = Some (fetchPending isReviewed cursor) ->
  exists c',
    settle n (QueryReply o) c = Some c'
    /\ store c' = fetched isReviewed cursor o (store c)
    /\ inflight c' = remove_nth n (inflight c).
Proof.
  intros Hn. unfold settle. rewrite Hn.
  eexists. split; [reflexivity |].
  unfold start; cbn [store inflight].
  split; [reflexivity |].
  destruct isReviewed, o; cbn; apply app_nil_r.
Qed.

Lemma fetched_success (isReviewed : bool) (cursor : Cursor) (response : Response)
    (st : State) :
  fetched isReviewed cursor (Fulfilled response) st
  = setIsLoading (Value false)
      (if isReviewed then
         setReviewedCursor (Value (next response))
           (setReviewedItems (Updater (fun prev =>
              if truthy cursor then prev ++ items response else items response)) st)
       else
         setReviewQueueCursor (Value (next response))
           (setReviewQueueItems (Updater (fun prev =>
              if truthy cursor then prev ++ items response else items response)) st)).
Proof. destruct isReviewed; reflexivity. Qed.

Lemma fetched_failure (isReviewed : bool) (cursor : Cursor) (st : State) :
  fetched isReviewed cursor Rejected st = setIsLoading (Value false) st.
Proof. destruct isReviewed; reflexivity. Qed.

(** ** Single operations *)

(** C10: [formatEntityType] is defined on every string; it maps the three
    known tags to their display names and returns every other string
    unchanged. *)
Theorem formatEntityType_known_tags_and_identity :
  formatEntityType "stream:chat:v1:message" = "Chat Message"
  /\ formatEntityType "stream:feeds:v2:activity" = "Feeds Activity"
  /\ formatEntityType "stream:feeds:v2:reaction" = "Feeds Reaction"
  /\ forall entityType : string,
       entityType <> "stream:chat:v1:message" ->
       entityType <> "stream:feeds:v2:activity" ->
       entityType <> "stream:feeds:v2:reaction" ->
       formatEntityType entityType = entityType.
Proof.
  repeat split; try reflexivity.
  intros entityType H1 H2 H3. unfold formatEntityType.
  apply String.eqb_neq in H1, H2, H3.
  now rewrite H1, H2, H3.
Qed.

Lemma formatEntityType_known_tags_and_identity_witness :
  formatEntityType "stream:feeds:v3:comment" = "stream:feeds:v3:comment".
Proof.
  apply (proj2 (proj2 (proj2 formatEntityType_known_tags_and_identity)));
    intro H; discriminate H.
Defined.

(** C8: the only client call [fetchItems] makes is one [queryReviewQueue]
    with the filter [{entity_type: "stream:chat:v1:message", reviewed:
    isReviewed, has_text: true}], an empty sort list and the pagination
    [{next: cursor, limit: 25}]; the rest of the body issues no call. *)
Theorem fetchItems_query_arguments (isReviewed : bool) (cursor : Cursor) :
  exists k,
    suspended (fetchItems isReviewed cursor)
    = [PendQuery {| f_entity_type := "stream:chat:v1:message";
                    f_reviewed := isReviewed;
                    f_has_text := true |}
                 []
                 {| p_next := cursor; p_limit := 25 |}
                 k]
    /\ forall o, suspended (k o) = [].
Proof.
  eexists. split; [reflexivity |].
  intros o. destruct isReviewed, o; reflexivity.
Qed.

(** C6: [fetchItems] sets [isLoading] to [true] and only then calls the
    client, so the flag is [true] while the query is in flight; and in
    whatever configuration the query settles, fulfilled or rejected, the
    body ends there with the flag [false]. *)
Theorem fetchItems_loading_flag_released (isReviewed : bool) (cursor : Cursor) :
  (exists f s p k,
      fetchItems isReviewed cursor
      = SetState (setIsLoading (Value true)) (AwaitQuery f s p k))
  /\ (forall c, isLoading (store (start (fetchItems isReviewed cursor) c)) = true)
  /\ (forall c n o,
        nth_error (inflight c) n = Some (fetchPending isReviewed cursor) ->
        exists c',
          settle n (QueryReply o) c = Some c'
          /\ isLoading (store c') = false
          /\ inflight c' = remove_nth n (inflight c)).
Proof.
  split; [do 4 eexists; reflexivity |].
  split; [reflexivity |].
  intros c n o Hn.
  destruct (settle_fetchPending c n isReviewed cursor o Hn) as (c' & Hs & Hst & Hin).
  exists c'. split; [exact Hs |]. split; [| exact Hin].
  rewrite Hst. destruct o; [rewrite fetched_success | rewrite fetched_failure];
    reflexivity.
Qed.

Lemma fetchItems_loading_flag_released_witness :
  exists c',
    settle 0 (QueryReply Rejected) (start (fetchItems true (Some "c1")) initialConfig)
    = Some c'
    /\ isLoading (store c') = false
    /\ inflight c' = [].
Proof.
  apply (proj2 (proj2 (fetchItems_loading_flag_released true (Some "c1")))
           (start (fetchItems true (Some "c1")) initialConfig) 0 Rejected).
  reflexivity.
Defined.

(** C2: when the query of a [fetchItems] call is fulfilled, the queue's
    collection is its collection before the call followed by the returned
    items if a cursor was passed, and exactly the returned items if none
    was; its cursor is the [next] of the response. *)
Theorem fetchItems_success_appends_or_replaces
    (c : Config) (isReviewed : bool) (cursor : Cursor) (response : Response) :
  exists c',
    settle (List.length (inflight c)) (QueryReply (Fulfilled response))
           (start (fetchItems isReviewed cursor) c) = Some c'
    /\ (truthy cursor = true ->
        queueItems isReviewed (store c')
        = queueItems isReviewed (store c) ++ items response)
    /\ (truthy cursor = false ->
        queueItems isReviewed (store c') = items response)
    /\ queueCursor isReviewed (store c') = next response.
Proof.
  erewrite settle_issued;
    [| apply suspended_fetchItems | reflexivity].
  eexists. split; [reflexivity |].
  destruct isReviewed; cbn; (split; [| split]);
    try reflexivity; intros ->; reflexivity.
Qed.

Lemma fetchItems_success_appends_or_replaces_witness :
  exists c',
    settle 0 (QueryReply (Fulfilled {| items := [message "b" "bye"]; next := None |}))
           (start (fetchItems false (Some "c1"))
                  (idle (setReviewQueueItems (Value [message "a" "hello"]) initialState)))
    = Some c'
    /\ reviewQueueItems (store c') = [message "a" "hello"; message "b" "bye"]
    /\ reviewQueueCursor (store c') = None.
Proof.
  destruct (fetchItems_success_appends_or_replaces
              (idle (setReviewQueueItems (Value [message "a" "hello"]) initialState))
              false (Some "c1")
              {| items := [message "b" "bye"]; next := None |})
    as (c' & Hs & Happ & _ & Hcur).
  exists c'. split; [exact Hs |]. split; [| exact Hcur].
  apply Happ. reflexivity.
Defined.

(** The updaters of [fetchItems] act on the collection as it is when the
    query settles, whatever happened since the call. *)
Lemma fetchItems_success_at_settlement
    (c : Config) (n : nat) (isReviewed : bool) (cursor : Cursor) (response : Response) :
  nth_error (inflight c) n = Some (fetchPending isReviewed cursor) ->
  exists c',
    settle n (QueryReply (Fulfilled response)) c = Some c'
    /\ queueItems isReviewed (store c')
       = (if truthy cursor
          then queueItems isReviewed (store c) ++ items response
          else items response)
    /\ queueCursor isReviewed (store c') = next response
    /\ queueItems (negb isReviewed) (store c') = queueItems (negb isReviewed) (store c)
    /\ queueCursor (negb isReviewed) (store c') = queueCursor (negb isReviewed) (store c).
Proof.
  intros Hn.
  destruct (settle_fetchPending c n isReviewed cursor (Fulfilled response) Hn)
    as (c' & Hs & Hst & _).
  exists c'. split; [exact Hs |].
  rewrite Hst, fetched_success.
  destruct isReviewed; repeat split.
Qed.

(** C3: when the client call of [fetchItems], [handleMarkReviewed] or
    [handleDelete] is rejected, the two collections and the two cursors are
    the same after the handler has ended as before it was called. *)
Theorem rejected_calls_leave_queues_unchanged (c : Config) :
  (forall isReviewed cursor,
      exists c',
        settle (List.length (inflight c)) (QueryReply Rejected)
               (start (fetchItems isReviewed cursor) c) = Some c'
        /\ inflight c' = inflight c
        /\ queues (store c') = queues (store c))
  /\ (forall rendered itemId,
        exists c',
          settle (List.length (inflight c)) (SubmitReply Rejected)
                 (start (handleMarkReviewed rendered itemId) c) = Some c'
          /\ inflight c' = inflight c
          /\ queues (store c') = queues (store c))
  /\ (forall itemId,
        exists c',
          settle (List.length (inflight c)) (SubmitReply Rejected)
                 (start (handleDelete itemId) c) = Some c'
          /\ inflight c' = inflight c
          /\ queues (store c') = queues (store c)).
Proof.
  split; [| split].
  - intros isReviewed cursor.
    erewrite settle_issued; [| apply suspended_fetchItems | reflexivity].
    eexists. split; [reflexivity |].
    destruct isReviewed; cbn; split; try apply app_nil_r; reflexivity.
  - intros rendered itemId.
    erewrite settle_issued; [| reflexivity | reflexivity].
    eexists. split; [reflexivity |].
    cbn. split; [apply app_nil_r | reflexivity].
  - intros itemId.
    erewrite settle_issued; [| reflexivity | reflexivity].
    eexists. split; [reflexivity |].
    cbn. split; [apply app_nil_r | reflexivity].
Qed.

(** ** Lists of items *)

Section ItemLists.
Variable itemId : string.

Let hasId (item : Item) : bool := id item =? itemId.
Let hasOtherId (item : Item) : bool := negb (id item =? itemId).

Lemma find_absent (l : list Item) :
  ~ In itemId (ids l) -> find hasId l = None.
Proof.
  induction l as [|a l IH]; intros Hnot; [reflexivity |].
  cbn [find]. unfold hasId at 1.
  destruct (String.eqb_spec (id a) itemId) as [Heq | Hne].
  - exfalso. apply Hnot. left. exact Heq.
  - apply IH. intros Hin. apply Hnot. right. exact Hin.
Qed.


Lemma filter_absent (l : list Item) :
  ~ In itemId (ids l) -> filter hasOtherId l = l.
Proof.
  induction l as [|a l IH]; intros Hnot; [reflexivity |].
  cbn [filter]. unfold hasOtherId at 1.
  destruct (String.eqb_spec (id a) itemId) as [Heq | Hne].
  - exfalso. apply Hnot. left. exact Heq.
  - cbn [negb]. f_equal. apply IH. intros Hin. apply Hnot. right. exact Hin.
Qed.

Lemma filter_removes (l : list Item) :
  ~ In itemId (ids (filter hasOtherId l)).
Proof.
  unfold ids. intros Hin. apply in_map_iff in Hin.
  destruct Hin as (item & Hid & Hin).
  apply filter_In in Hin. destruct Hin as [_ Hneg].
  unfold hasOtherId in Hneg. rewrite <- Hid, String.eqb_refl in Hneg.
  discriminate Hneg.
Qed.

Lemma filter_ids_incl (l : list Item) (i : string) :
  In i (ids (filter hasOtherId l)) -> In i (ids l).
Proof.
  unfold ids. intros Hin. apply in_map_iff in Hin.
  destruct Hin as (item & Hid & Hin).
  apply filter_In in Hin. apply in_map_iff. exists item. tauto.
Qed.

Lemma filter_ids_NoDup (l : list Item) :
  NoDup (ids l) -> NoDup (ids (filter hasOtherId l)).
Proof.
  induction l as [|a l IH]; intros Hnd; [constructor |].
  cbn [ids map] in Hnd. inversion Hnd as [|x xs Hnot Hnd' ]; subst.
  cbn [filter]. destruct (hasOtherId a).
  - cbn [ids map]. constructor; [| apply IH; exact Hnd'].
    intros Hin. apply Hnot. apply filter_ids_incl. exact Hin.
  - apply IH. exact Hnd'.
Qed.

Lemma length_filter_count (l : list Item) :
  List.length (filter hasOtherId l) + count_occ string_dec (ids l) itemId
  = List.length l.
Proof.
  induction l as [|a l IH]; [reflexivity |].
  cbn [filter ids map count_occ]. unfold hasOtherId at 1.
  destruct (String.eqb_spec (id a) itemId) as [Heq | Hne].
  - destruct (string_dec (id a) itemId) as [_ | Hne]; [| contradiction].
    cbn [negb List.length]. fold (ids l). lia.
  - destruct (string_dec (id a) itemId) as [Heq | _]; [contradiction |].
    cbn [negb List.length]. fold (ids l). lia.
Qed.
End ItemLists.

(** ** The two actions, run to their end *)

Lemma marked_acknowledged (rendered : State) (itemId : string) (st : State) :
  marked rendered itemId (Fulfilled tt) st
  = let removed :=
      setReviewQueueItems (Updater (fun prev =>
        filter (fun item => negb (id item =? itemId)) prev)) st in
    match find (fun item => id item =? itemId) (reviewQueueItems rendered) with
    | Some item => setReviewedItems (Updater (fun prev => item :: prev)) removed
    | None => removed
    end.
Proof.
  unfold marked, markPending, handleMarkReviewed. cbn.
  destruct (find _ (reviewQueueItems rendered)); reflexivity.
Qed.

Lemma deleted_acknowledged (itemId : string) (st : State) :
  deleted itemId (Fulfilled tt) st
  = setReviewQueueItems (Updater (fun prev =>
      filter (fun item => negb (id item =? itemId)) prev)) st.
Proof. reflexivity. Qed.

Lemma settle_markPending (c : Config) (n : nat) (rendered : State)
    (itemId : string) (o : Outcome unit) :
  nth_error (inflight c) n = Some (markPending rendered itemId) ->
  exists c',
    settle n (SubmitReply o) c = Some c'
    /\ store c' = marked rendered itemId o (store c)
    /\ inflight c' = remove_nth n (inflight c).
Proof.
  intros Hn. unfold settle. rewrite Hn.
  eexists. split; [reflexivity |].
  unfold start; cbn [store inflight].
  split; [reflexivity |].
  destruct o as [[] |]; cbn; [| apply app_nil_r].
  destruct (find _ (reviewQueueItems rendered)); apply app_nil_r.
Qed.

Lemma settle_deletePending (c : Config) (n : nat) (itemId : string)
    (o : Outcome unit) :
  nth_error (inflight c) n = Some (deletePending itemId) ->
  exists c',
    settle n (SubmitReply o) c = Some c'
    /\ store c' = deleted itemId o (store c)
    /\ inflight c' = remove_nth n (inflight c).
Proof.
  intros Hn. unfold settle. rewrite Hn.
  eexists. split; [reflexivity |].
  unfold start; cbn [store inflight].
  split; [reflexivity |].
  destruct o; apply app_nil_r.
Qed.

(** Clicking an action and having it settle before anything else happens. *)
Lemma click_mark_then_settle (c : Config) (itemId : string) (o : Outcome unit) :
  exists c',
    settle (List.length (inflight c)) (SubmitReply o)
           (start (handleMarkReviewed (store c) itemId) c) = Some c'
    /\ store c' = marked (store c) itemId o (store c)
    /\ inflight c' = inflight c.
Proof.
  destruct (settle_markPending (start (handleMarkReviewed (store c) itemId) c)
              (List.length (inflight c)) (store c) itemId o) as (c' & Hs & Hst & Hin).
  - apply nth_error_issued.
  - exists c'. split; [exact Hs |]. split; [exact Hst |].
    rewrite Hin. apply remove_nth_issued.
Qed.

Lemma click_delete_then_settle (c : Config) (itemId : string) (o : Outcome unit) :
  exists c',
    settle (List.length (inflight c)) (SubmitReply o)
           (start (handleDelete itemId) c) = Some c'
    /\ store c' = deleted itemId o (store c)
    /\ inflight c' = inflight c.
Proof.
  destruct (settle_deletePending (start (handleDelete itemId) c)
              (List.length (inflight c)) itemId o) as (c' & Hs & Hst & Hin).
  - apply nth_error_issued.
  - exists c'. split; [exact Hs |]. split; [exact Hst |].
    rewrite Hin. apply remove_nth_issued.
Qed.

(** [duplicatedStore] is reachable while the client answers every query,
    and equal queries with equal pages: two requests for the same page
    overlap. *)
Lemma duplicatedStore_reachable :
  exists c,
    run initialConfig overlappingScrollFetches = Some c
    /\ store c = duplicatedStore
    /\ inflight c = [].
Proof.
  eexists. split; [vm_compute; reflexivity |]. split; vm_compute; reflexivity.
Qed.

(** [duplicatedStore] is also reachable without any overlap of requests,
    when two consecutive pages share an item. *)
Lemma duplicatedStore_reachable_in_sequence :
  exists c,
    run initialConfig overlappingPages = Some c
    /\ store c = duplicatedStore
    /\ inflight c = [].
Proof.
  eexists. split; [vm_compute; reflexivity |]. split; vm_compute; reflexivity.
Qed.

(** C9: for an id that is not in the pending collection,
    [handleMarkReviewed] still submits ["mark_reviewed"] for it, and once
    the submission is acknowledged both collections and both cursors are
    what they were: nothing is found to move. *)
Theorem markReviewed_absent_id_changes_nothing (c : Config) (itemId : string) :
  ~ In itemId (ids (reviewQueueItems (store c))) ->
  (exists k,
      suspended (handleMarkReviewed (store c) itemId)
      = [PendSubmit "mark_reviewed" itemId None k])
  /\ exists c',
       settle (List.length (inflight c)) (SubmitReply (Fulfilled tt))
              (start (handleMarkReviewed (store c) itemId) c) = Some c'
       /\ queues (store c') = queues (store c).
Proof.
  intros Hnot. split; [eexists; reflexivity |].
  destruct (click_mark_then_settle c itemId (Fulfilled tt)) as (c' & Hs & Hst & _).
  exists c'. split; [exact Hs |].
  rewrite Hst, marked_acknowledged. cbv zeta.
  rewrite (find_absent itemId _ Hnot).
  unfold queues, setReviewQueueItems; cbn.
  now rewrite (filter_absent itemId _ Hnot).
Qed.

Lemma markReviewed_absent_id_changes_nothing_witness :
  exists c',
    settle 0 (SubmitReply (Fulfilled tt))
           (start (handleMarkReviewed duplicatedStore "m7") (idle duplicatedStore))
    = Some c'
    /\ queues (store c') = queues duplicatedStore.
Proof.
  apply (markReviewed_absent_id_changes_nothing (idle duplicatedStore) "m7").
  cbn. intros [H | [H | [H | []]]]; discriminate H.
Defined.

(** The first item with a given id splits the list: nothing before it has
    the id, [find] returns it, and the filter keeps what is before it. *)
Lemma find_first_split (itemId : string) (l : list Item) :
  In itemId (ids l) ->
  exists before item after,
    l = before ++ item :: after
    /\ ~ In itemId (ids before)
    /\ id item = itemId
    /\ find (fun item => id item =? itemId) l = Some item
    /\ filter (fun item => negb (id item =? itemId)) l
       = before ++ filter (fun item => negb (id item =? itemId)) after.
Proof.
  induction l as [| a l IH]; intros Hin; [destruct Hin |].
  destruct (String.eqb_spec (id a) itemId) as [Heq | Hne].
  - exists [], a, l. cbn [app ids map find filter].
    apply String.eqb_eq in Heq as Hb. rewrite Hb. cbn [negb].
    repeat split; [intros [] | apply String.eqb_eq; exact Hb].
  - destruct Hin as [Heq | Hin]; [contradiction |].
    destruct (IH Hin) as (before & item & after & Hl & Hbefore & Hid & Hfind & Hfilter).
    exists (a :: before), item, after. cbn [app ids map find filter].
    apply String.eqb_neq in Hne as Hb. rewrite Hb. cbn [negb].
    split; [now rewrite Hl |].
    split; [intros [H | H]; [contradiction | exact (Hbefore H)] |].
    split; [exact Hid |]. split; [exact Hfind |].
    now rewrite Hfilter.
Qed.

(** C1, amended: for an id in the pending collection, a
    [handleMarkReviewed] of the current render whose submission is
    acknowledged before anything else happens leaves no item with that id in
    the pending collection and puts the first pending item with that id, the
    one no item with that id precedes, at the front of the reviewed
    collection; the number of items across both queues drops by the number
    of further pending items with that id, so it is unchanged when the id
    occurs once. *)
Theorem markReviewed_moves_first_match (c : Config) (itemId : string) :
  In itemId (ids (reviewQueueItems (store c))) ->
  exists before item after c',
    reviewQueueItems (store c) = before ++ item :: after
    /\ ~ In itemId (ids before)
    /\ id item = itemId
    /\ settle (List.length (inflight c)) (SubmitReply (Fulfilled tt))
              (start (handleMarkReviewed (store c) itemId) c) = Some c'
    /\ inflight c' = inflight c
    /\ reviewQueueItems (store c')
       = before ++ filter (fun other => negb (id other =? itemId)) after
    /\ ~ In itemId (ids (reviewQueueItems (store c')))
    /\ reviewedItems (store c') = item :: reviewedItems (store c)
    /\ totalItems (store c')
       + count_occ string_dec (ids (reviewQueueItems (store c))) itemId
       = totalItems (store c) + 1
    /\ (count_occ string_dec (ids (reviewQueueItems (store c))) itemId = 1 ->
        totalItems (store c') = totalItems (store c)).
Proof.
  intros Hin.
  destruct (find_first_split itemId _ Hin)
    as (before & item & after & Hsplit & Hbefore & Hid & Hfind & Hfilter).
  destruct (click_mark_then_settle c itemId (Fulfilled tt)) as (c' & Hs & Hst & Hfl).
  exists before, item, after, c'.
  split; [exact Hsplit |]. split; [exact Hbefore |]. split; [exact Hid |].
  split; [exact Hs |]. split; [exact Hfl |].
  rewrite Hst, marked_acknowledged. cbv zeta. rewrite Hfind.
  pose proof (length_filter_count itemId (reviewQueueItems (store c))) as Hlen.
  cbv zeta in Hlen.
  unfold totalItems; cbn.
  split; [exact Hfilter |].
  split; [apply (filter_removes itemId) |].
  split; [reflexivity |].
  split; lia.
Qed.

Lemma markReviewed_moves_first_match_witness :
  exists before item after c',
    reviewQueueItems duplicatedStore = before ++ item :: after
    /\ ~ In "m2" (ids before)
    /\ id item = "m2"
    /\ settle 0 (SubmitReply (Fulfilled tt))
              (start (handleMarkReviewed duplicatedStore "m2") (idle duplicatedStore))
       = Some c'
    /\ ~ In "m2" (ids (reviewQueueItems (store c')))
    /\ reviewedItems (store c') = [item]
    /\ totalItems (store c') + 2 = totalItems duplicatedStore + 1.
Proof.
  destruct (markReviewed_moves_first_match (idle duplicatedStore) "m2")
    as (before & item & after & c' & Hsplit & Hbefore & Hid & Hs & _ & _ & Hgone
        & Hfront & Htotal & _).
  - cbn. right. left. reflexivity.
  - exists before, item, after, c'. repeat split; assumption.
Defined.

(** C1 as stated fails: in [duplicatedStore] the id ["m2"] is in the
    pending collection, and an acknowledged [handleMarkReviewed] of it takes
    the number of items across both queues from 3 to 2. *)
Lemma markReviewed_duplicated_id_shrinks_total :
  In "m2" (ids (reviewQueueItems duplicatedStore))
  /\ totalItems duplicatedStore = 3
  /\ exists c',
       settle 0 (SubmitReply (Fulfilled tt))
              (start (handleMarkReviewed duplicatedStore "m2") (idle duplicatedStore))
       = Some c'
       /\ reviewQueueItems (store c') = [message "m1" "first"]
       /\ reviewedItems (store c') = [message "m2" "second"]
       /\ totalItems (store c') = 2.
Proof.
  split; [cbn; tauto |]. split; [reflexivity |].
  eexists. split; [vm_compute; reflexivity |]. repeat split.
Qed.

(** C7, amended: for an id in the pending collection, an acknowledged
    [handleDelete] leaves no item with that id in the pending collection and
    does not touch the reviewed collection; the number of items across both
    queues drops by the number of pending items with that id, which is one
    when the id occurs once. *)
Theorem delete_removes_every_match (c : Config) (itemId : string) :
  In itemId (ids (reviewQueueItems (store c))) ->
  exists c',
    settle (List.length (inflight c)) (SubmitReply (Fulfilled tt))
           (start (handleDelete itemId) c) = Some c'
    /\ ~ In itemId (ids (reviewQueueItems (store c')))
    /\ reviewedItems (store c') = reviewedItems (store c)
    /\ totalItems (store c')
       + count_occ string_dec (ids (reviewQueueItems (store c))) itemId
       = totalItems (store c)
    /\ (count_occ string_dec (ids (reviewQueueItems (store c))) itemId = 1 ->
        totalItems (store c') + 1 = totalItems (store c)).
Proof.
  intros _.
  destruct (click_delete_then_settle c itemId (Fulfilled tt)) as (c' & Hs & Hst & _).
  exists c'. split; [exact Hs |].
  rewrite Hst, deleted_acknowledged.
  pose proof (length_filter_count itemId (reviewQueueItems (store c))) as Hlen.
  cbv zeta in Hlen.
  unfold totalItems; cbn.
  split; [apply (filter_removes itemId) |].
  split; [reflexivity |].
  split; lia.
Qed.

Lemma delete_removes_every_match_witness :
  exists c',
    settle 0 (SubmitReply (Fulfilled tt))
           (start (handleDelete "m1") (idle duplicatedStore)) = Some c'
    /\ ~ In "m1" (ids (reviewQueueItems (store c')))
    /\ totalItems (store c') + 1 = totalItems duplicatedStore.
Proof.
  destruct (delete_removes_every_match (idle duplicatedStore) "m1")
    as (c' & Hs & Hgone & _ & _ & Hone).
  - cbn. left. reflexivity.
  - exists c'. repeat split; try assumption.
    apply Hone. reflexivity.
Defined.

(** C7 as stated fails: in [duplicatedStore] the id ["m2"] is in the
    pending collection, and an acknowledged [handleDelete] of it takes the
    number of items across both queues from 3 to 1. *)
Lemma delete_duplicated_id_drops_two :
  In "m2" (ids (reviewQueueItems duplicatedStore))
  /\ totalItems duplicatedStore = 3
  /\ exists c',
       settle 0 (SubmitReply (Fulfilled tt))
              (start (handleDelete "m2") (idle duplicatedStore)) = Some c'
       /\ reviewQueueItems (store c') = [message "m1" "first"]
       /\ reviewedItems (store c') = []
       /\ totalItems (store c') = 1.
Proof.
  split; [cbn; tauto |]. split; [reflexivity |].
  eexists. split; [vm_compute; reflexivity |]. repeat split.
Qed.

(** ** Uniqueness of ids *)

Lemma NoDup_app_parts {A : Type} (l1 l2 : list A) :
  NoDup (l1 ++ l2) ->
  NoDup l1 /\ NoDup l2 /\ forall a, In a l1 -> ~ In a l2.
Proof.
  intros H. split; [eapply NoDup_app_remove_r; exact H |].
  split; [eapply NoDup_app_remove_l; exact H |].
  induction l1 as [|x l1 IH]; intros a Hin; [destruct Hin |].
  cbn [app] in H. apply NoDup_cons_iff in H. destruct H as [Hx Hrest].
  destruct Hin as [-> | Hin].
  - intros Hin2. apply Hx. apply in_or_app. now right.
  - now apply IH.
Qed.

Lemma ids_app (l1 l2 : list Item) : ids (l1 ++ l2) = ids l1 ++ ids l2.
Proof. apply map_app. Qed.

Lemma perform_fetch (st : State) (isReviewed : bool) (cursor : Cursor)
    (o : Outcome Response) :
  perform st (OpFetch isReviewed cursor o)
  = Some (fetched isReviewed cursor o (setIsLoading (Value true) st)).
Proof. reflexivity. Qed.

Lemma perform_mark (st : State) (itemId : string) (o : Outcome unit) :
  perform st (OpMarkReviewed itemId o) = Some (marked st itemId o st).
Proof. reflexivity. Qed.

Lemma perform_delete (st : State) (itemId : string) (o : Outcome unit) :
  perform st (OpDelete itemId o) = Some (deleted itemId o st).
Proof. reflexivity. Qed.

Lemma fetched_keeps_ids_unique (st : State) (isReviewed : bool) (cursor : Cursor)
    (o : Outcome Response) :
  NoDup (allIds st) ->
  freshPage st (OpFetch isReviewed cursor o) ->
  NoDup (allIds (fetched isReviewed cursor o (setIsLoading (Value true) st))).
Proof.
  intros Hnd Hfresh.
  destruct o as [response |]; [| rewrite fetched_failure; exact Hnd].
  rewrite fetched_success.
  destruct Hfresh as [Hpage Hnew].
  apply NoDup_app_parts in Hnd. destruct Hnd as (HP & HR & Hdisj).
  unfold allIds.
  destruct isReviewed; cbn in Hnew |- *;
    destruct (truthy cursor); rewrite ?ids_app.
  - apply NoDup_app; [exact HP | |].
    + apply NoDup_app; [exact HR | exact Hpage |].
      intros a Ha Hb. now apply (proj2 (Hnew a Hb)).
    + intros a Ha Hb. apply in_app_or in Hb. destruct Hb as [Hb | Hb].
      * now apply (Hdisj a).
      * now apply (proj1 (Hnew a Hb)).
  - apply NoDup_app; [exact HP | exact Hpage |].
    intros a Ha Hb. now apply (proj1 (Hnew a Hb)).
  - apply NoDup_app; [| exact HR |].
    + apply NoDup_app; [exact HP | exact Hpage |].
      intros a Ha Hb. now apply (proj2 (Hnew a Hb)).
    + intros a Ha Hb. apply in_app_or in Ha. destruct Ha as [Ha | Ha].
      * now apply (Hdisj a).
      * now apply (proj1 (Hnew a Ha)).
  - apply NoDup_app; [exact Hpage | exact HR |].
    intros a Ha Hb. now apply (proj1 (Hnew a Ha)).
Qed.

Lemma marked_keeps_ids_unique (st : State) (itemId : string) (o : Outcome unit) :
  NoDup (allIds st) -> NoDup (allIds (marked st itemId o st)).
Proof.
  intros Hnd. destruct o as [[] |]; [| exact Hnd].
  rewrite marked_acknowledged. cbv zeta.
  apply NoDup_app_parts in Hnd. destruct Hnd as (HP & HR & Hdisj).
  pose proof (filter_ids_NoDup itemId _ HP) as HP'.
  pose proof (filter_removes itemId (reviewQueueItems st)) as Hgone.
  pose proof (filter_ids_incl itemId (reviewQueueItems st)) as Hsub.
  cbv zeta in HP', Hgone, Hsub.
  destruct (find _ (reviewQueueItems st)) as [item |] eqn:Hfind;
    unfold allIds; cbn.
  - apply find_some in Hfind. destruct Hfind as [Hitem Hid].
    cbv beta in Hid. apply String.eqb_eq in Hid.
    apply NoDup_app; [exact HP' | |].
    + constructor; [| exact HR].
      apply (Hdisj (id item)). unfold ids. now apply in_map.
    + intros a Ha [Hb | Hb].
      * subst a. subst itemId. exact (Hgone Ha).
      * apply (Hdisj a); [apply Hsub; exact Ha | exact Hb].
  - apply NoDup_app; [exact HP' | exact HR |].
    intros a Ha. apply Hdisj. apply Hsub. exact Ha.
Qed.

Lemma deleted_keeps_ids_unique (st : State) (itemId : string) (o : Outcome unit) :
  NoDup (allIds st) -> NoDup (allIds (deleted itemId o st)).
Proof.
  intros Hnd. destruct o as [[] |]; [| exact Hnd].
  rewrite deleted_acknowledged.
  apply NoDup_app_parts in Hnd. destruct Hnd as (HP & HR & Hdisj).
  pose proof (filter_ids_NoDup itemId _ HP) as HP'.
  pose proof (filter_ids_incl itemId (reviewQueueItems st)) as Hsub.
  cbv zeta in HP', Hsub.
  unfold allIds; cbn.
  apply NoDup_app; [exact HP' | exact HR |].
  intros a Ha. apply Hdisj. apply Hsub. exact Ha.
Qed.

(** C4, amended: in every store reached from the initial one by fetches,
    mark-reviewed and delete operations that are completed one at a time,
    each from the latest render, against a client whose pages carry ids
    distinct from each other and from the ids the store keeps, each id
    occurs at most once across the two collections. *)
Theorem orderly_ids_unique (st : State) :
  orderly st -> NoDup (allIds st).
Proof.
  induction 1 as [| st st' op _ IH Hfresh Hperform]; [constructor |].
  destruct op as [isReviewed cursor o | itemId o | itemId o].
  - rewrite perform_fetch in Hperform. injection Hperform as <-.
    now apply fetched_keeps_ids_unique.
  - rewrite perform_mark in Hperform. injection Hperform as <-.
    now apply marked_keeps_ids_unique.
  - rewrite perform_delete in Hperform. injection Hperform as <-.
    now apply deleted_keeps_ids_unique.
Qed.

Lemma orderly_ids_unique_witness : NoDup (allIds oneItemReviewed).
Proof.
  apply orderly_ids_unique.
  apply (orderly_perform
           (setReviewQueueItems (Value [message "m1" "first"]) initialState)
           oneItemReviewed
           (OpMarkReviewed "m1" (Fulfilled tt))).
  - apply (orderly_perform initialState _
             (OpFetch false None
                (Fulfilled {| items := [message "m1" "first"]; next := None |}))).
    + apply orderly_initial.
    + cbn. split.
      * constructor; [intros [] | constructor].
      * intros i _. split; [intros [] | intros H; discriminate H].
    + vm_compute. reflexivity.
  - exact I.
  - vm_compute. reflexivity.
Defined.

(** C4 as stated fails, in two ways.  When an item is marked reviewed on
    the server between the two first-page queries, both first pages carry
    it and it is in both collections.  And when two requests for the same
    page overlap, the page is appended twice and its ids occur twice in one
    collection, although the client answers equal queries with equal
    pages. *)
Lemma reachable_stores_repeat_ids :
  (exists c,
      run initialConfig reviewedBetweenFirstPages = Some c
      /\ In "m1" (ids (reviewQueueItems (store c)))
      /\ In "m1" (ids (reviewedItems (store c)))
      /\ ~ NoDup (allIds (store c)))
  /\ (exists c,
        run initialConfig overlappingScrollFetches = Some c
        /\ count_occ string_dec (ids (reviewQueueItems (store c))) "m2" = 2
        /\ ~ NoDup (allIds (store c))).
Proof.
  split.
  - eexists. split; [vm_compute; reflexivity |].
    split; [vm_compute; tauto |]. split; [vm_compute; tauto |].
    vm_compute. intros H. apply NoDup_cons_iff in H. destruct H as [H _].
    apply H. left. reflexivity.
  - eexists. split; [vm_compute; reflexivity |].
    split; [vm_compute; reflexivity |].
    vm_compute. intros H. apply NoDup_cons_iff in H. destruct H as [_ H].
    apply NoDup_cons_iff in H. destruct H as [H _].
    apply H. left. reflexivity.
Qed.

(** ** The scroll trigger *)

Lemma suspended_handleScroll (st : State) (window : Viewport) :
  suspended (handleScroll st window) = []
  \/ (isLoading st = false
      /\ truthy (queueCursor (activeTab st =? 1)%nat st) = true
      /\ suspended (handleScroll st window)
         = [fetchPending (activeTab st =? 1)%nat
                         (queueCursor (activeTab st =? 1)%nat st)]).
Proof.
  unfold handleScroll, queueCursor.
  destruct (isLoading st); [now left |].
  destruct (innerHeight window + scrollY window >? scrollHeight window - 200)%Z;
    [| now left].
  destruct (activeTab st =? 1)%nat.
  - destruct (truthy (reviewedCursor st)) eqn:Hc; [right | now left].
    repeat split.
  - destruct (truthy (reviewQueueCursor st)) eqn:Hc; [right | now left].
    repeat split.
Qed.






(** ** What is in flight *)

Lemma In_remove_nth {A : Type} (n : nat) (l : list A) (x : A) :
  In x (remove_nth n l) -> In x l.
Proof.
  unfold remove_nth. revert l.
  induction n as [| n IH]; intros [| a l] Hx; cbn in Hx |- *; try tauto.
  destruct Hx as [Hx | Hx]; [now left | right; now apply IH].
Qed.

Lemma Forall_remove_nth {A : Type} (P : A -> Prop) (n : nat) (l : list A) :
  Forall P l -> Forall P (remove_nth n l).
Proof.
  rewrite !Forall_forall. intros H x Hx. apply H.
  eapply In_remove_nth; exact Hx.
Qed.


(** The rest of a handler, once its promise has settled: only the rest of
    [initializeData] after a successful connection issues further calls,
    the two first-page queries. *)
Lemma resume_fromApp (p : Pending) (r : Reply) (t : Task) :
  fromApp p -> resume p r = Some t -> Forall fromApp (suspended t).
Proof.
  intros Hp Hr. destruct Hp as [| isReviewed cursor | rendered itemId | itemId];
    destruct r as [o | o | o]; try discriminate Hr;
    cbn in Hr; injection Hr as <-.
  - destruct o as [[] |]; cbn; [| constructor].
    constructor; [apply (fromApp_fetch false None) |].
    constructor; [apply (fromApp_fetch true None) | constructor].
  - destruct isReviewed, o; constructor.
  - destruct o as [[] |]; cbn; [| constructor].
    destruct (find _ (reviewQueueItems rendered)); constructor.
  - destruct o; constructor.
Qed.

Lemma step_fromApp (c c' : Config) (ev : Event) :
  Forall fromApp (inflight c) -> step c ev = Some c' -> Forall fromApp (inflight c').
Proof.
  intros Hc Hstep.
  destruct ev as [| window | itemId | itemId | activeIndex | item | | n r];
    cbn [step] in Hstep;
    try (injection Hstep as <-; unfold start; cbn [inflight];
         apply Forall_app; split; [exact Hc |]).
  - constructor; [apply fromApp_connect | constructor].
  - destruct (suspended_handleScroll (store c) window) as [-> | (_ & _ & ->)];
      constructor; [apply fromApp_fetch | constructor].
  - constructor; [apply (fromApp_mark (store c) itemId) | constructor].
  - constructor; [apply (fromApp_delete itemId) | constructor].
  - constructor.
  - constructor.
  - constructor.
  - unfold settle in Hstep.
    destruct (nth_error (inflight c) n) as [p |] eqn:Hn; [| discriminate Hstep].
    destruct (resume p r) as [t |] eqn:Hr; [| discriminate Hstep].
    injection Hstep as <-. unfold start; cbn [inflight].
    apply Forall_app. split; [apply Forall_remove_nth; exact Hc |].
    apply (resume_fromApp p r t); [| exact Hr].
    apply (proj1 (Forall_forall fromApp (inflight c)) Hc).
    eapply nth_error_In; exact Hn.
Qed.

Lemma run_fromApp (evs : list Event) (c c' : Config) :
  Forall fromApp (inflight c) -> run c evs = Some c' -> Forall fromApp (inflight c').
Proof.
  revert c. induction evs as [| ev evs IH]; intros c Hc Hrun; cbn [run] in Hrun.
  - injection Hrun as <-. exact Hc.
  - destruct (step c ev) as [c1 |] eqn:Hstep; [| discriminate Hrun].
    apply (IH c1); [| exact Hrun]. eapply step_fromApp; eassumption.
Qed.

Lemma reachable_fromApp (c : Config) :
  reachable c -> Forall fromApp (inflight c).
Proof.
  intros [evs Hrun]. apply (run_fromApp evs initialConfig c); [constructor | exact Hrun].
Qed.

(** ** A queue whose cursor is absent *)









(** C5, on the code: an absent cursor must keep the scroll trigger from
    fetching for that queue until a remount, and [handleScroll] returns
    while [isLoading] is up so that requests do not overlap; but the flag
    is shared, and the [finally] of the reviewed queue's first-page fetch
    clears it while a request for the pending queue is in flight, so a
    second request for the same page starts.  After [untilLastPage] the
    pending queue's cursor is absent, left so by the first answer; the
    answer to the overlapping request then stores a cursor again, and
    without any remount the next scroll evaluation requests a page of the
    pending queue. *)
Lemma absent_cursor_then_scroll_fetch :
  exists c1 c2,
    run initialConfig untilLastPage = Some c1
    /\ reviewQueueCursor (store c1) = None
    /\ existsb isMount thenLaterAnswer = false
    /\ run c1 thenLaterAnswer = Some c2
    /\ isLoading (store c2) = false
    /\ activeTab (store c2) = 0
    /\ scrollFetches false (store c2) nearBottom = true
    /\ suspended (handleScroll (store c2) nearBottom)
       = [fetchPending false (Some "c2")].
Proof.
  eexists. eexists.
  split; [vm_compute; reflexivity |].
  split; [vm_compute; reflexivity |].
  split; [reflexivity |].
  split; [vm_compute; reflexivity |].
  repeat split; vm_compute; reflexivity.
Qed.

(** Every fetch the component starts passes [null] or a cursor that is not
    empty: [initializeData] passes none and [handleScroll] a truthy one. *)
Lemma fetchItems_callers_pass_null_or_nonempty :
  (forall o, suspended (match resume connectPending (ConnectReply o) with
                        | Some k => k
                        | None => Skip
                        end) = []
             \/ suspended (match resume connectPending (ConnectReply o) with
                           | Some k => k
                           | None => Skip
                           end) = [fetchPending false None; fetchPending true None])
  /\ (forall st window,
        suspended (handleScroll st window) = []
        \/ exists isReviewed cursor,
             truthy cursor = true
             /\ suspended (handleScroll st window) = [fetchPending isReviewed cursor]).
Proof.
  split.
  - intros [[] |]; [right | left]; reflexivity.
  - intros st window.
    destruct (suspended_handleScroll st window) as [H | (_ & Hc & H)];
      [now left | right].
    eexists. eexists. split; [exact Hc | exact H].
Qed.

(** Two submissions for one item that are in flight together both move it:
    the second handler still holds the array of the render it was created
    in. *)
Lemma double_click_repeats_id :
  exists c,
    run initialConfig doubleClick = Some c
    /\ reviewQueueItems (store c) = []
    /\ reviewedItems (store c) = [message "m1" "first"; message "m1" "first"].
Proof.
  eexists. split; [vm_compute; reflexivity |]. split; vm_compute; reflexivity.
Qed.

(** ** Start-up *)

Lemma nth_error_middle {A : Type} (l l' : list A) (a : A) :
  nth_error (l ++ a :: l') (List.length l) = Some a.
Proof.
  induction l as [| x l IH]; [reflexivity | exact IH].
Qed.

Lemma remove_nth_middle {A : Type} (l l' : list A) (a : A) :
  remove_nth (List.length l) (l ++ a :: l') = l ++ l'.
Proof.
  unfold remove_nth.
  induction l as [| x l IH]; [reflexivity |].
  cbn [List.length app firstn skipn]. cbn [skipn] in IH.
  now rewrite IH.
Qed.

Lemma nth_error_after_middle {A : Type} (l l' : list A) (a b : A) :
  nth_error (l ++ a :: b :: l') (S (List.length l)) = Some b.
Proof.
  induction l as [| x l IH]; [reflexivity | exact IH].
Qed.

Lemma remove_nth_after_middle {A : Type} (l l' : list A) (a b : A) :
  remove_nth (S (List.length l)) (l ++ a :: b :: l') = l ++ a :: l'.
Proof.
  unfold remove_nth.
  induction l as [| x l IH]; [reflexivity |].
  change (x :: (firstn (S (List.length l)) (l ++ a :: b :: l')
                ++ skipn (S (S (List.length l))) (l ++ a :: b :: l'))
          = x :: (l ++ a :: l')).
  now rewrite IH.
Qed.

Lemma run_app (c : Config) (evs1 evs2 : list Event) :
  run c (evs1 ++ evs2)
  = match run c evs1 with
    | Some c' => run c' evs2
    | None => None
    end.
Proof.
  revert c. induction evs1 as [| ev evs1 IH]; intros c; [reflexivity |].
  cbn [app run]. destruct (step c ev); [apply IH | reflexivity].
Qed.

(** The configuration after mounting and a successful connection: both
    first-page queries are in flight, the pending one first. *)
Lemma mount_connected (c : Config) :
  run c [Mount; Settle (List.length (inflight c)) (ConnectReply (Fulfilled tt))]
  = Some {| store := setIsLoading (Value true) (setIsLoading (Value true) (store c));
            inflight := inflight c ++ [fetchPending false None; fetchPending true None];
            consoleOut := (consoleOut c ++ []) ++ [] |}.
Proof.
  cbn [run step].
  erewrite settle_issued; [| reflexivity | reflexivity].
  reflexivity.
Qed.

(** X1: when [connectUser] is rejected, [initializeData] stops there: no
    query is issued, the store is untouched, and the rejection is left
    unhandled. *)
Theorem initializeData_connection_rejected (c : Config) :
  exists c',
    run c [Mount; Settle (List.length (inflight c)) (ConnectReply Rejected)] = Some c'
    /\ store c' = store c
    /\ inflight c' = inflight c
    /\ consoleOut c' = consoleOut c ++ [UnhandledRejection].
Proof.
  cbn [run step].
  erewrite settle_issued; [| reflexivity | reflexivity].
  eexists. split; [reflexivity |].
  cbn. rewrite !app_nil_r. repeat split.
Qed.

(** The two first-page fetches write different cells, so the order in which
    they end does not matter. *)
Lemma fetched_commute (cursorP cursorR : Cursor) (oP oR : Outcome Response)
    (st : State) :
  fetched true cursorR oR (fetched false cursorP oP st)
  = fetched false cursorP oP (fetched true cursorR oR st).
Proof.
  destruct oP, oR;
    rewrite ?fetched_success, ?fetched_failure; reflexivity.
Qed.

(** X2: after a successful connection both first pages are requested at
    once, and in whichever order the two queries settle, and however each
    settles, the store ends the same: each queue holds its own page and
    cursor if its query was fulfilled and what it held before if not, the
    loading flag is down and nothing of the start-up is left in flight. *)
Theorem first_pages_settle_in_any_order (c : Config) (oP oR : Outcome Response) :
  exists c1 c2,
    run c [Mount;
           Settle (List.length (inflight c)) (ConnectReply (Fulfilled tt));
           Settle (List.length (inflight c)) (QueryReply oP);
           Settle (List.length (inflight c)) (QueryReply oR)] = Some c1
    /\ run c [Mount;
              Settle (List.length (inflight c)) (ConnectReply (Fulfilled tt));
              Settle (S (List.length (inflight c))) (QueryReply oR);
              Settle (List.length (inflight c)) (QueryReply oP)] = Some c2
    /\ store c1 = store c2
    /\ inflight c1 = inflight c
    /\ inflight c2 = inflight c
    /\ isLoading (store c1) = false
    /\ queues (store c1)
       = (match oP with Fulfilled r => items r | Rejected => reviewQueueItems (store c) end,
          match oR with Fulfilled r => items r | Rejected => reviewedItems (store c) end,
          match oP with Fulfilled r => next r | Rejected => reviewQueueCursor (store c) end,
          match oR with Fulfilled r => next r | Rejected => reviewedCursor (store c) end).
Proof.
  change [Mount;
          Settle (List.length (inflight c)) (ConnectReply (Fulfilled tt));
          Settle (List.length (inflight c)) (QueryReply oP);
          Settle (List.length (inflight c)) (QueryReply oR)]
    with ([Mount; Settle (List.length (inflight c)) (ConnectReply (Fulfilled tt))]
          ++ [Settle (List.length (inflight c)) (QueryReply oP);
              Settle (List.length (inflight c)) (QueryReply oR)]).
  change [Mount;
          Settle (List.length (inflight c)) (ConnectReply (Fulfilled tt));
          Settle (S (List.length (inflight c))) (QueryReply oR);
          Settle (List.length (inflight c)) (QueryReply oP)]
    with ([Mount; Settle (List.length (inflight c)) (ConnectReply (Fulfilled tt))]
          ++ [Settle (S (List.length (inflight c))) (QueryReply oR);
              Settle (List.length (inflight c)) (QueryReply oP)]).
  rewrite !run_app, mount_connected.
  set (c0 := {| store := setIsLoading (Value true) (setIsLoading (Value true) (store c));
                inflight := inflight c ++ [fetchPending false None; fetchPending true None];
                consoleOut := (consoleOut c ++ []) ++ [] |}).
  cbn [run step].
  (* pending page first *)
  destruct (settle_fetchPending c0 (List.length (inflight c)) false None oP)
    as (cA & HsA & HstA & HinA); [apply nth_error_middle |].
  rewrite HsA.
  unfold c0 in HinA; cbn [inflight] in HinA. rewrite remove_nth_middle in HinA.
  destruct (settle_fetchPending cA (List.length (inflight c)) true None oR)
    as (cB & HsB & HstB & HinB); [rewrite HinA; apply nth_error_middle |].
  rewrite HsB.
  rewrite HinA, remove_nth_middle, app_nil_r in HinB.
  (* reviewed page first *)
  destruct (settle_fetchPending c0 (S (List.length (inflight c))) true None oR)
    as (cA' & HsA' & HstA' & HinA'); [apply nth_error_after_middle |].
  rewrite HsA'.
  unfold c0 in HinA'; cbn [inflight] in HinA'.
  rewrite remove_nth_after_middle in HinA'.
  destruct (settle_fetchPending cA' (List.length (inflight c)) false None oP)
    as (cB' & HsB' & HstB' & HinB'); [rewrite HinA'; apply nth_error_middle |].
  rewrite HsB'.
  rewrite HinA', remove_nth_middle, app_nil_r in HinB'.
  exists cB, cB'.
  split; [reflexivity |]. split; [reflexivity |].
  assert (Hstore : store cB
                   = fetched true None oR (fetched false None oP (store c0))).
  { now rewrite HstB, HstA. }
  split; [rewrite Hstore, HstB', HstA'; apply fetched_commute |].
  split; [exact HinB |]. split; [exact HinB' |].
  rewrite Hstore. unfold c0; cbn [store].
  destruct oP, oR; rewrite ?fetched_success, ?fetched_failure; split; reflexivity.
Qed.

(** ** Scrolling *)

Lemma handleScroll_cases (st : State) (window : Viewport) :
  (isLoading st = false
   /\ (innerHeight window + scrollY window > scrollHeight window - 200)%Z
   /\ truthy (queueCursor (activeTab st =? 1)%nat st) = true
   /\ handleScroll st window
      = Log (LogLoadingMore (queueCursor (activeTab st =? 1)%nat st))
            (fetchItems (activeTab st =? 1)%nat
                        (queueCursor (activeTab st =? 1)%nat st)))
  \/ ((isLoading st = true
       \/ (innerHeight window + scrollY window <= scrollHeight window - 200)%Z
       \/ truthy (queueCursor (activeTab st =? 1)%nat st) = false)
      /\ handleScroll st window = Skip).
Proof.
  unfold handleScroll, queueCursor.
  destruct (isLoading st); [right; split; [now left | reflexivity] |].
  destruct (Z.gtb_spec (innerHeight window + scrollY window)
                       (scrollHeight window - 200)) as [Hgt | Hle];
    [| right; split; [right; left; exact Hle | reflexivity]].
  destruct (activeTab st =? 1)%nat.
  - destruct (truthy (reviewedCursor st)) eqn:Hc.
    + left. repeat split. lia.
    + right. split; [right; right; reflexivity | reflexivity].
  - destruct (truthy (reviewQueueCursor st)) eqn:Hc.
    + left. repeat split. lia.
    + right. split; [right; right; reflexivity | reflexivity].
Qed.

Lemma scroll_starts_fetch (c : Config) (window : Viewport) :
  isLoading (store c) = false ->
  (innerHeight window + scrollY window > scrollHeight window - 200)%Z ->
  truthy (queueCursor (activeTab (store c) =? 1)%nat (store c)) = true ->
  step c (Scroll window)
  = Some {| store := setIsLoading (Value true) (store c);
            inflight :=
              inflight c
              ++ [fetchPending (activeTab (store c) =? 1)%nat
                    (queueCursor (activeTab (store c) =? 1)%nat (store c))];
            consoleOut :=
              consoleOut c
              ++ [LogLoadingMore
                    (queueCursor (activeTab (store c) =? 1)%nat (store c))] |}.
Proof.
  intros Hl Hz Hc. cbn [step].
  destruct (handleScroll_cases (store c) window)
    as [(_ & _ & _ & ->) | ([H | [H | H]] & _)];
    [reflexivity | congruence | lia | congruence].
Qed.

Lemma scroll_does_nothing (c : Config) (window : Viewport) :
  isLoading (store c) = true
  \/ (innerHeight window + scrollY window <= scrollHeight window - 200)%Z
  \/ truthy (queueCursor (activeTab (store c) =? 1)%nat (store c)) = false ->
  step c (Scroll window) = Some c.
Proof.
  intros Hno. cbn [step].
  destruct (handleScroll_cases (store c) window)
    as [(Hl & Hz & Hc & _) | (_ & ->)].
  - destruct Hno as [H | [H | H]]; [congruence | lia | congruence].
  - destruct c as [st fl out]. unfold start; cbn. now rewrite !app_nil_r.
Qed.

(** X3: the scroll evaluation requests a page exactly when the loading flag
    is down, the bottom of the window is less than 200 px from the end of
    the document and the active queue has a non-empty cursor; it then raises
    the loading flag, writes one console line and has one query in flight,
    for the active queue with that cursor.  In every other case it does
    nothing at all. *)
Theorem handleScroll_fetches_exactly_when (c : Config) (window : Viewport) :
  (isLoading (store c) = false ->
   (innerHeight window + scrollY window > scrollHeight window - 200)%Z ->
   truthy (queueCursor (activeTab (store c) =? 1)%nat (store c)) = true ->
   step c (Scroll window)
   = Some {| store := setIsLoading (Value true) (store c);
             inflight :=
               inflight c
               ++ [fetchPending (activeTab (store c) =? 1)%nat
                     (queueCursor (activeTab (store c) =? 1)%nat (store c))];
             consoleOut :=
               consoleOut c
               ++ [LogLoadingMore
                     (queueCursor (activeTab (store c) =? 1)%nat (store c))] |})
  /\ (isLoading (store c) = true
      \/ (innerHeight window + scrollY window <= scrollHeight window - 200)%Z
      \/ truthy (queueCursor (activeTab (store c) =? 1)%nat (store c)) = false ->
      step c (Scroll window) = Some c).
Proof.
  split; [apply scroll_starts_fetch | apply scroll_does_nothing].
Qed.

Lemma handleScroll_fetches_exactly_when_witness :
  step (idle (setReviewedCursor (Value (Some "r1")) (setActiveTab (Value 1) initialState)))
       (Scroll nearBottom)
  = Some {| store := setIsLoading (Value true)
                       (setReviewedCursor (Value (Some "r1"))
                          (setActiveTab (Value 1) initialState));
            inflight := [fetchPending true (Some "r1")];
            consoleOut := [LogLoadingMore (Some "r1")] |}
  /\ step (idle initialState) (Scroll nearBottom) = Some (idle initialState).
Proof.
  split.
  - apply (proj1 (handleScroll_fetches_exactly_when
                    (idle (setReviewedCursor (Value (Some "r1"))
                             (setActiveTab (Value 1) initialState)))
                    nearBottom)).
    + reflexivity.
    + vm_compute. reflexivity.
    + reflexivity.
  - apply (proj2 (handleScroll_fetches_exactly_when (idle initialState) nearBottom)).
    right. right. reflexivity.
Defined.

(** X4: the cursor a fetch stores is the cursor the next scroll evaluation
    sends.  When a fetch for the active queue is fulfilled, then on the store
    this settlement leaves, a scroll near the bottom requests the page at
    the [next] of the response if that is a non-empty string; and if the
    response carries no [next], or an empty one, a scroll evaluation on that
    store requests nothing, wherever the window is. *)
Theorem stored_cursor_is_sent_next
    (c : Config) (n : nat) (isReviewed : bool) (cursor : Cursor)
    (response : Response) (window : Viewport) :
  nth_error (inflight c) n = Some (fetchPending isReviewed cursor) ->
  (activeTab (store c) =? 1)%nat = isReviewed ->
  (innerHeight window + scrollY window > scrollHeight window - 200)%Z ->
  exists c',
    settle n (QueryReply (Fulfilled response)) c = Some c'
    /\ (truthy (next response) = true ->
        suspended (handleScroll (store c') window)
        = [fetchPending isReviewed (next response)])
    /\ (truthy (next response) = false ->
        forall window', handleScroll (store c') window' = Skip).
Proof.
  intros Hn Htab Hz.
  destruct (settle_fetchPending c n isReviewed cursor (Fulfilled response) Hn)
    as (c' & Hs & Hst & _).
  exists c'. split; [exact Hs |].
  assert (Htab' : (activeTab (store c') =? 1)%nat = isReviewed).
  { rewrite Hst, fetched_success. destruct isReviewed; exact Htab. }
  assert (Hcur : queueCursor isReviewed (store c') = next response).
  { rewrite Hst, fetched_success. destruct isReviewed; reflexivity. }
  assert (Hl : isLoading (store c') = false).
  { rewrite Hst, fetched_success. reflexivity. }
  split.
  - intros Ht.
    destruct (handleScroll_cases (store c') window)
      as [(_ & _ & _ & ->) | ([H | [H | H]] & _)].
    + rewrite Htab', Hcur. reflexivity.
    + congruence.
    + lia.
    + rewrite Htab', Hcur in H. congruence.
  - intros Hf window'.
    destruct (handleScroll_cases (store c') window')
      as [(_ & _ & H & _) | (_ & ->)]; [| reflexivity].
    rewrite Htab', Hcur in H. congruence.
Qed.

Lemma stored_cursor_is_sent_next_witness :
  exists c',
    settle 0 (QueryReply (Fulfilled {| items := [message "m1" "first"];
                                       next := Some "c1" |}))
           (start (fetchItems false None) initialConfig) = Some c'
    /\ suspended (handleScroll (store c') nearBottom)
       = [fetchPending false (Some "c1")].
Proof.
  destruct (stored_cursor_is_sent_next
              (start (fetchItems false None) initialConfig) 0 false None
              {| items := [message "m1" "first"]; next := Some "c1" |} nearBottom)
    as (c' & Hs & Hsend & _).
  - reflexivity.
  - reflexivity.
  - vm_compute. reflexivity.
  - exists c'. split; [exact Hs |]. apply Hsend. reflexivity.
Defined.

Lemma settle_fetch_rejected (c : Config) (n : nat) (isReviewed : bool)
    (cursor : Cursor) :
  nth_error (inflight c) n = Some (fetchPending isReviewed cursor) ->
  settle n (QueryReply Rejected) c
  = Some {| store := setIsLoading (Value false) (store c);
            inflight := remove_nth n (inflight c);
            consoleOut := consoleOut c ++ [ErrFetching] |}.
Proof.
  intros Hn. unfold settle. rewrite Hn.
  destruct isReviewed; unfold start; cbn; now rewrite app_nil_r.
Qed.

(** X5: a scroll fetch whose query is rejected leaves the whole store as it
    was before the scroll, cursor included, so that the next scroll
    evaluation does what this one did; the console has the request and the
    error. *)
Theorem rejected_scroll_fetch_restores_store (c : Config) (window : Viewport) :
  isLoading (store c) = false ->
  (innerHeight window + scrollY window > scrollHeight window - 200)%Z ->
  truthy (queueCursor (activeTab (store c) =? 1)%nat (store c)) = true ->
  exists c',
    run c [Scroll window; Settle (List.length (inflight c)) (QueryReply Rejected)]
    = Some c'
    /\ store c' = store c
    /\ inflight c' = inflight c
    /\ consoleOut c'
       = consoleOut c
         ++ [LogLoadingMore (queueCursor (activeTab (store c) =? 1)%nat (store c));
             ErrFetching].
Proof.
  intros Hl Hz Hc.
  cbn [run].
  rewrite (scroll_starts_fetch c window Hl Hz Hc).
  cbn [step].
  erewrite settle_fetch_rejected; [| cbn [inflight]; apply nth_error_issued].
  eexists. split; [reflexivity |].
  cbn [store inflight consoleOut].
  split; [| split; [apply remove_nth_issued | now rewrite <- app_assoc]].
  destruct (store c); cbn in Hl |- *. now subst.
Qed.

Lemma rejected_scroll_fetch_restores_store_witness :
  exists c',
    run (idle (setReviewQueueCursor (Value (Some "c1")) initialState))
        [Scroll nearBottom; Settle 0 (QueryReply Rejected)] = Some c'
    /\ store c' = setReviewQueueCursor (Value (Some "c1")) initialState
    /\ consoleOut c' = [LogLoadingMore (Some "c1"); ErrFetching].
Proof.
  destruct (rejected_scroll_fetch_restores_store
              (idle (setReviewQueueCursor (Value (Some "c1")) initialState))
              nearBottom)
    as (c' & Hr & Hst & _ & Hout).
  - reflexivity.
  - vm_compute. reflexivity.
  - reflexivity.
  - exists c'. repeat split; assumption.
Defined.

(** ** Pages in sequence *)

Lemma last_cons {A : Type} (l : list A) (x d : A) :
  last (x :: l) d = last l x.
Proof.
  revert x d. induction l as [| y l IH]; intros x d; [reflexivity |].
  change (last (y :: l) d = last (y :: l) x). now rewrite !IH.
Qed.

Lemma appended_pages (isReviewed : bool) (pages : list (Cursor * Response))
    (st : State) :
  Forall (fun page => truthy (fst page) = true) pages ->
  exists st',
    performAll st
      (map (fun page => OpFetch isReviewed (fst page) (Fulfilled (snd page))) pages)
    = Some st'
    /\ queueItems isReviewed st'
       = queueItems isReviewed st ++ List.concat (map (fun page => items (snd page)) pages)
    /\ queueCursor isReviewed st'
       = last (map (fun page => next (snd page)) pages) (queueCursor isReviewed st)
    /\ queueItems (negb isReviewed) st' = queueItems (negb isReviewed) st
    /\ queueCursor (negb isReviewed) st' = queueCursor (negb isReviewed) st
    /\ (isLoading st = false -> isLoading st' = false).
Proof.
  revert st. induction pages as [| [cursor response] pages IH]; intros st Hall.
  - exists st. cbn. rewrite app_nil_r. repeat split. tauto.
  - inversion Hall as [| x xs Hc Hrest]; subst. cbn [fst] in Hc.
    cbn [map performAll fst snd]. rewrite perform_fetch.
    destruct (IH (fetched isReviewed cursor (Fulfilled response)
                    (setIsLoading (Value true) st)) Hrest)
      as (st' & Hp & Hitems & Hcur & Hoi & Hoc & Hl).
    exists st'. split; [exact Hp |].
    rewrite fetched_success, Hc in Hitems, Hcur, Hoi, Hoc, Hl.
    split; [| split; [| split; [| split]]].
    + rewrite Hitems. cbn [List.concat]. rewrite app_assoc. f_equal.
      destruct isReviewed; reflexivity.
    + rewrite Hcur. cbn [map snd]. rewrite last_cons. f_equal.
      destruct isReviewed; reflexivity.
    + rewrite Hoi. destruct isReviewed; reflexivity.
    + rewrite Hoc. destruct isReviewed; reflexivity.
    + intros _. apply Hl. destruct isReviewed; reflexivity.
Qed.

(** X6: when the first page of a queue and then further pages, each
    requested with a non-empty cursor, are fetched one after the other, the
    queue holds the items of all pages in arrival order, so their number is
    the sum of the page sizes, and its cursor is the [next] of the last
    answer; the other queue is as it was. *)
Theorem pages_accumulate_in_order (isReviewed : bool) (first : Response)
    (pages : list (Cursor * Response)) (st : State) :
  Forall (fun page => truthy (fst page) = true) pages ->
  exists st',
    performAll st (pagedFetches isReviewed first pages) = Some st'
    /\ queueItems isReviewed st'
       = items first ++ List.concat (map (fun page => items (snd page)) pages)
    /\ List.length (queueItems isReviewed st')
       = List.length (items first)
         + list_sum (map (fun page => List.length (items (snd page))) pages)
    /\ queueCursor isReviewed st'
       = last (map (fun page => next (snd page)) pages) (next first)
    /\ queueItems (negb isReviewed) st' = queueItems (negb isReviewed) st
    /\ queueCursor (negb isReviewed) st' = queueCursor (negb isReviewed) st
    /\ isLoading st' = false.
Proof.
  intros Hall. unfold pagedFetches. cbn [performAll]. rewrite perform_fetch.
  destruct (appended_pages isReviewed pages
              (fetched isReviewed None (Fulfilled first) (setIsLoading (Value true) st))
              Hall)
    as (st' & Hp & Hitems & Hcur & Hoi & Hoc & Hl).
  exists st'. split; [exact Hp |].
  rewrite fetched_success in Hitems, Hcur, Hoi, Hoc, Hl.
  assert (Hi : queueItems isReviewed st'
               = items first ++ List.concat (map (fun page => items (snd page)) pages)).
  { rewrite Hitems. destruct isReviewed; reflexivity. }
  split; [exact Hi |].
  split.
  { rewrite Hi, length_app. f_equal.
    clear. induction pages as [| page pages IH]; [reflexivity |].
    cbn [map List.concat list_sum]. rewrite length_app, IH. reflexivity. }
  split; [rewrite Hcur; destruct isReviewed; reflexivity |].
  split; [rewrite Hoi; destruct isReviewed; reflexivity |].
  split; [rewrite Hoc; destruct isReviewed; reflexivity |].
  apply Hl. destruct isReviewed; reflexivity.
Qed.

Lemma pages_accumulate_in_order_witness :
  exists st',
    performAll initialState
      (pagedFetches false
         {| items := [message "m1" "first"]; next := Some "c1" |}
         [(Some "c1", {| items := [message "m2" "second"; message "m3" "third"];
                         next := None |})])
    = Some st'
    /\ reviewQueueItems st'
       = [message "m1" "first"; message "m2" "second"; message "m3" "third"]
    /\ reviewQueueCursor st' = None.
Proof.
  destruct (pages_accumulate_in_order false
              {| items := [message "m1" "first"]; next := Some "c1" |}
              [(Some "c1", {| items := [message "m2" "second"; message "m3" "third"];
                              next := None |})]
              initialState)
    as (st' & Hp & Hitems & _ & Hcur & _).
  - constructor; [reflexivity | constructor].
  - exists st'. split; [exact Hp |]. split; [exact Hitems | exact Hcur].
Defined.

(** ** Actions *)

(** X7: [handleDelete] always asks for a soft delete, and for an id that is
    not in the pending collection, such as the id of an item shown on the
    "Reviewed" tab, the acknowledged deletion changes neither collection:
    the item stays where it is shown. *)
Theorem delete_outside_pending_changes_nothing (c : Config) (itemId : string) :
  ~ In itemId (ids (reviewQueueItems (store c))) ->
  (exists k,
      suspended (handleDelete itemId)
      = [PendSubmit "delete_message" itemId (Some {| hard_delete := false |}) k])
  /\ exists c',
       settle (List.length (inflight c)) (SubmitReply (Fulfilled tt))
              (start (handleDelete itemId) c) = Some c'
       /\ queues (store c') = queues (store c)
       /\ inflight c' = inflight c.
Proof.
  intros Hnot. split; [eexists; reflexivity |].
  destruct (click_delete_then_settle c itemId (Fulfilled tt)) as (c' & Hs & Hst & Hin).
  exists c'. split; [exact Hs |]. split; [| exact Hin].
  rewrite Hst, deleted_acknowledged.
  unfold queues, setReviewQueueItems; cbn.
  now rewrite (filter_absent itemId _ Hnot).
Qed.

Lemma delete_outside_pending_changes_nothing_witness :
  exists c',
    settle 0 (SubmitReply (Fulfilled tt))
           (start (handleDelete "m1") (idle oneItemReviewed)) = Some c'
    /\ queues (store c') = queues oneItemReviewed
    /\ inflight c' = [].
Proof.
  apply (delete_outside_pending_changes_nothing (idle oneItemReviewed) "m1").
  cbn. intros [].
Defined.

Lemma filter_commute {A : Type} (f g : A -> bool) (l : list A) :
  filter f (filter g l) = filter g (filter f l).
Proof.
  induction l as [| a l IH]; [reflexivity |].
  cbn [filter]. destruct (g a) eqn:Hg, (f a) eqn:Hf; cbn [filter];
    rewrite ?Hg, ?Hf, IH; reflexivity.
Qed.

Lemma marked_rejected (rendered : State) (itemId : string) (st : State) :
  marked rendered itemId Rejected st = st.
Proof. reflexivity. Qed.

Lemma deleted_rejected (itemId : string) (st : State) :
  deleted itemId Rejected st = st.
Proof. reflexivity. Qed.

(** X8: a deletion and another action that are in flight together can be
    acknowledged or rejected in either order: a [handleDelete] commutes
    with a [handleMarkReviewed] and with another [handleDelete], whatever
    the ids and whatever render created the handlers. *)
Theorem delete_commutes_with_actions
    (rendered : State) (id1 id2 : string) (o1 o2 : Outcome unit) (st : State) :
  deleted id2 o2 (marked rendered id1 o1 st)
  = marked rendered id1 o1 (deleted id2 o2 st)
  /\ deleted id2 o2 (deleted id1 o1 st) = deleted id1 o1 (deleted id2 o2 st).
Proof.
  destruct o1 as [[] |], o2 as [[] |];
    rewrite ?marked_rejected, ?deleted_rejected; try (split; reflexivity).
  rewrite !deleted_acknowledged, !marked_acknowledged. cbv zeta.
  split.
  - destruct (find _ (reviewQueueItems rendered));
      unfold setReviewQueueItems, setReviewedItems; cbn;
      f_equal; apply filter_commute.
  - unfold setReviewQueueItems; cbn. f_equal. apply filter_commute.
Qed.

Lemma filter_app_absent (itemId : string) (l page : list Item) :
  ~ In itemId (ids page) ->
  filter (fun item => negb (id item =? itemId)) (l ++ page)
  = filter (fun item => negb (id item =? itemId)) l ++ page.
Proof.
  intros Hnot. rewrite filter_app. f_equal. apply (filter_absent itemId _ Hnot).
Qed.

(** X9: an action and a page fetch that are in flight together commute when
    the page does not interfere: a deletion commutes with a fulfilled fetch
    of the reviewed queue, and with one of the pending queue whose page does
    not carry the deleted id; a mark-reviewed commutes with a fulfilled
    fetch of the pending queue whose page does not carry the id, and with
    one of the reviewed queue that appends. *)
Theorem actions_commute_with_fresh_pages
    (rendered : State) (itemId : string) (isReviewed : bool) (cursor : Cursor)
    (response : Response) (st : State) :
  (isReviewed = false -> ~ In itemId (ids (items response))) ->
  (deleted itemId (Fulfilled tt) (fetched isReviewed cursor (Fulfilled response) st)
   = fetched isReviewed cursor (Fulfilled response) (deleted itemId (Fulfilled tt) st))
  /\ (isReviewed = true -> truthy cursor = true ->
      marked rendered itemId (Fulfilled tt)
             (fetched isReviewed cursor (Fulfilled response) st)
      = fetched isReviewed cursor (Fulfilled response)
                (marked rendered itemId (Fulfilled tt) st))
  /\ (isReviewed = false ->
      marked rendered itemId (Fulfilled tt)
             (fetched isReviewed cursor (Fulfilled response) st)
      = fetched isReviewed cursor (Fulfilled response)
                (marked rendered itemId (Fulfilled tt) st)).
Proof.
  intros Hfresh.
  rewrite !deleted_acknowledged, !marked_acknowledged, !fetched_success. cbv zeta.
  destruct isReviewed.
  - split; [reflexivity |]. split; [| discriminate].
    intros _ ->.
    destruct (find _ (reviewQueueItems rendered)); reflexivity.
  - specialize (Hfresh eq_refl).
    assert (Hf : filter (fun item => negb (id item =? itemId))
                   (if truthy cursor then reviewQueueItems st ++ items response
                    else items response)
                 = if truthy cursor
                   then filter (fun item => negb (id item =? itemId))
                          (reviewQueueItems st) ++ items response
                   else items response).
    { destruct (truthy cursor);
        [apply filter_app_absent; exact Hfresh
        | apply (filter_absent itemId _ Hfresh)]. }
    split; [| split; [discriminate |]].
    + unfold setReviewQueueItems, setReviewQueueCursor, setIsLoading; cbn.
      now rewrite Hf.
    + intros _.
      destruct (find _ (reviewQueueItems rendered));
        unfold setReviewQueueItems, setReviewedItems, setReviewQueueCursor,
          setIsLoading; cbn; now rewrite Hf.
Qed.

Lemma actions_commute_with_fresh_pages_witness :
  deleted "m1" (Fulfilled tt)
    (fetched false (Some "c1")
       (Fulfilled {| items := [message "m3" "third"]; next := None |}) duplicatedStore)
  = fetched false (Some "c1")
      (Fulfilled {| items := [message "m3" "third"]; next := None |})
      (deleted "m1" (Fulfilled tt) duplicatedStore).
Proof.
  apply (actions_commute_with_fresh_pages duplicatedStore "m1" false (Some "c1")
           {| items := [message "m3" "third"]; next := None |} duplicatedStore).
  intros _. cbn. intros [H | []]. discriminate H.
Defined.

(** X10: when the submission of [handleMarkReviewed] or [handleDelete] is
    rejected, the handler ends there: the whole store is what it was, the
    promise is no longer in flight, and the console has exactly one more
    line, the error of that handler. *)
Theorem rejected_actions_only_log (c : Config) (rendered : State) (itemId : string) :
  (exists c',
      settle (List.length (inflight c)) (SubmitReply Rejected)
             (start (handleMarkReviewed rendered itemId) c) = Some c'
      /\ store c' = store c
      /\ inflight c' = inflight c
      /\ consoleOut c' = consoleOut c ++ [ErrMarking])
  /\ (exists c',
        settle (List.length (inflight c)) (SubmitReply Rejected)
               (start (handleDelete itemId) c) = Some c'
        /\ store c' = store c
        /\ inflight c' = inflight c
        /\ consoleOut c' = consoleOut c ++ [ErrDeleting]).
Proof.
  split.
  - erewrite settle_issued; [| reflexivity | reflexivity].
    eexists. split; [reflexivity |]. cbn. rewrite !app_nil_r. repeat split.
  - erewrite settle_issued; [| reflexivity | reflexivity].
    eexists. split; [reflexivity |]. cbn. rewrite !app_nil_r. repeat split.
Qed.

(** ** Invariants of the reachable configurations *)

Lemma existsb_remove_nth_other {A : Type} (f : A -> bool) (n : nat) (l : list A)
    (p : A) :
  nth_error l n = Some p -> f p = false ->
  existsb f (remove_nth n l) = existsb f l.
Proof.
  unfold remove_nth. revert l.
  induction n as [| n IH]; intros [| a l] Hn Hp; try discriminate Hn.
  - cbn in Hn. injection Hn as ->. cbn. now rewrite Hp.
  - cbn [nth_error] in Hn.
    change (existsb f (a :: (firstn n l ++ skipn (S n) l)) = existsb f (a :: l)).
    cbn [existsb]. now rewrite (IH l Hn Hp).
Qed.

Lemma fetched_modal (isReviewed : bool) (cursor : Cursor) (o : Outcome Response)
    (st : State) :
  selectedItem (fetched isReviewed cursor o st) = selectedItem st
  /\ isModalOpen (fetched isReviewed cursor o st) = isModalOpen st
  /\ activeTab (fetched isReviewed cursor o st) = activeTab st.
Proof.
  destruct o; rewrite ?fetched_success, ?fetched_failure;
    destruct isReviewed; repeat split.
Qed.

Lemma marked_frame (rendered : State) (itemId : string) (o : Outcome unit)
    (st : State) :
  selectedItem (marked rendered itemId o st) = selectedItem st
  /\ isModalOpen (marked rendered itemId o st) = isModalOpen st
  /\ activeTab (marked rendered itemId o st) = activeTab st
  /\ isLoading (marked rendered itemId o st) = isLoading st.
Proof.
  destruct o as [[] |]; [| repeat split].
  rewrite marked_acknowledged. cbv zeta.
  destruct (find _ (reviewQueueItems rendered)); repeat split.
Qed.

Lemma deleted_frame (itemId : string) (o : Outcome unit) (st : State) :
  selectedItem (deleted itemId o st) = selectedItem st
  /\ isModalOpen (deleted itemId o st) = isModalOpen st
  /\ activeTab (deleted itemId o st) = activeTab st
  /\ isLoading (deleted itemId o st) = isLoading st.
Proof. destruct o as [[] |]; repeat split. Qed.

(** What the settlement of a promise of the component does to the store. *)
Lemma settle_fromApp (c c' : Config) (n : nat) (r : Reply) (p : Pending) :
  nth_error (inflight c) n = Some p ->
  fromApp p ->
  settle n r c = Some c' ->
  (p = connectPending
   /\ ((r = ConnectReply (Fulfilled tt)
        /\ store c' = setIsLoading (Value true) (setIsLoading (Value true) (store c))
        /\ inflight c'
           = remove_nth n (inflight c)
             ++ [fetchPending false None; fetchPending true None])
       \/ (r = ConnectReply Rejected
           /\ store c' = store c
           /\ inflight c' = remove_nth n (inflight c))))
  \/ (exists isReviewed cursor o,
         p = fetchPending isReviewed cursor /\ r = QueryReply o
         /\ store c' = fetched isReviewed cursor o (store c)
         /\ inflight c' = remove_nth n (inflight c))
  \/ (exists rendered itemId o,
         p = markPending rendered itemId /\ r = SubmitReply o
         /\ store c' = marked rendered itemId o (store c)
         /\ inflight c' = remove_nth n (inflight c))
  \/ (exists itemId o,
         p = deletePending itemId /\ r = SubmitReply o
         /\ store c' = deleted itemId o (store c)
         /\ inflight c' = remove_nth n (inflight c)).
Proof.
  intros Hn Hp Hs.
  destruct Hp as [| isReviewed cursor | rendered itemId | itemId].
  - left. split; [reflexivity |].
    unfold settle in Hs. rewrite Hn in Hs.
    destruct r as [o | o | o]; try discriminate Hs.
    injection Hs as <-.
    destruct o as [[] |]; [left | right]; unfold start; cbn;
      rewrite ?app_nil_r; repeat split.
  - right. left.
    destruct r as [o | o | o];
      try (unfold settle in Hs; rewrite Hn in Hs; discriminate Hs).
    destruct (settle_fetchPending c n isReviewed cursor o Hn) as (c2 & Hs2 & Hst & Hin).
    rewrite Hs in Hs2. injection Hs2 as <-.
    exists isReviewed, cursor, o. repeat split; assumption.
  - right. right. left.
    destruct r as [o | o | o];
      try (unfold settle in Hs; rewrite Hn in Hs; discriminate Hs).
    destruct (settle_markPending c n rendered itemId o Hn) as (c2 & Hs2 & Hst & Hin).
    rewrite Hs in Hs2. injection Hs2 as <-.
    exists rendered, itemId, o. repeat split; assumption.
  - right. right. right.
    destruct r as [o | o | o];
      try (unfold settle in Hs; rewrite Hn in Hs; discriminate Hs).
    destruct (settle_deletePending c n itemId o Hn) as (c2 & Hs2 & Hst & Hin).
    rewrite Hs in Hs2. injection Hs2 as <-.
    exists itemId, o. repeat split; assumption.
Qed.

Lemma step_flagCovered (c c' : Config) (ev : Event) :
  Forall fromApp (inflight c) -> flagCovered c -> step c ev = Some c' ->
  flagCovered c'.
Proof.
  intros Hfrom Hcov Hstep. unfold flagCovered in *.
  destruct ev as [| window | itemId | itemId | activeIndex | item | | n r];
    cbn [step] in Hstep.
  - injection Hstep as <-. unfold start; cbn. intros Hl.
    rewrite existsb_app, (Hcov Hl). reflexivity.
  - destruct (handleScroll_cases (store c) window)
      as [(Hl & Hz & Hc & _) | (Hno & _)].
    + change (step c (Scroll window) = Some c') in Hstep.
      rewrite (scroll_starts_fetch c window Hl Hz Hc) in Hstep.
      injection Hstep as <-. cbn [store inflight]. intros _.
      rewrite existsb_app. cbn. apply orb_true_r.
    + change (step c (Scroll window) = Some c') in Hstep.
      rewrite (scroll_does_nothing c window Hno) in Hstep.
      injection Hstep as <-. exact Hcov.
  - injection Hstep as <-. unfold start; cbn. intros Hl.
    rewrite existsb_app, (Hcov Hl). reflexivity.
  - injection Hstep as <-. unfold start; cbn. intros Hl.
    rewrite existsb_app, (Hcov Hl). reflexivity.
  - injection Hstep as <-. unfold start; cbn. intros Hl.
    rewrite existsb_app, (Hcov Hl). reflexivity.
  - injection Hstep as <-. unfold start; cbn. intros Hl.
    rewrite existsb_app, (Hcov Hl). reflexivity.
  - injection Hstep as <-. unfold start; cbn. intros Hl.
    rewrite existsb_app, (Hcov Hl). reflexivity.
  - destruct (nth_error (inflight c) n) as [p |] eqn:Hn;
      [| unfold settle in Hstep; rewrite Hn in Hstep; discriminate Hstep].
    assert (Hp : fromApp p).
    { apply (proj1 (Forall_forall fromApp (inflight c)) Hfrom).
      eapply nth_error_In; exact Hn. }
    destruct (settle_fromApp c c' n r p Hn Hp Hstep)
      as [(-> & [(_ & Hst & Hin) | (_ & Hst & Hin)])
         | [(b & cur & o & -> & _ & Hst & Hin)
           | [(rd & i & o & -> & _ & Hst & Hin)
             | (i & o & -> & _ & Hst & Hin)]]];
      rewrite Hst, Hin; intros Hl.
    + rewrite existsb_app. cbn. apply orb_true_r.
    + rewrite (existsb_remove_nth_other isQuery n _ _ Hn eq_refl). now apply Hcov.
    + exfalso. destruct o; rewrite ?fetched_success, ?fetched_failure in Hl;
        discriminate Hl.
    + rewrite (existsb_remove_nth_other isQuery n _ _ Hn eq_refl). apply Hcov.
      now rewrite (proj2 (proj2 (proj2 (marked_frame rd i o (store c))))) in Hl.
    + rewrite (existsb_remove_nth_other isQuery n _ _ Hn eq_refl). apply Hcov.
      now rewrite (proj2 (proj2 (proj2 (deleted_frame i o (store c))))) in Hl.
Qed.

(** X11: in every reachable configuration in which the loading flag is up,
    a query is in flight: once every query has settled, the flag is down and
    neither pane shows the loading note. *)
Theorem loading_flag_needs_query_in_flight (c : Config) :
  reachable c ->
  isLoading (store c) = true ->
  existsb isQuery (inflight c) = true.
Proof.
  intros [evs Hrun].
  assert (H : Forall fromApp (inflight c) /\ flagCovered c).
  { revert Hrun.
    assert (Hinit : Forall fromApp (inflight initialConfig) /\ flagCovered initialConfig).
    { split; [constructor | intros H; discriminate H]. }
    revert Hinit. generalize initialConfig as c0. revert c.
    induction evs as [| ev evs IH]; intros c c0 [Hf Hc] Hrun; cbn [run] in Hrun.
    - injection Hrun as <-. now split.
    - destruct (step c0 ev) as [c1 |] eqn:Hstep; [| discriminate Hrun].
      apply (IH c c1); [| exact Hrun].
      split; [eapply step_fromApp; eassumption
             | eapply step_flagCovered; eassumption]. }
  exact (proj2 H).
Qed.

Lemma loading_flag_needs_query_in_flight_witness :
  existsb isQuery
    (inflight (configAfter [Mount; Settle 0 (ConnectReply (Fulfilled tt))] initialConfig))
  = true.
Proof.
  apply loading_flag_needs_query_in_flight.
  - exists [Mount; Settle 0 (ConnectReply (Fulfilled tt))]. vm_compute. reflexivity.
  - vm_compute. reflexivity.
Defined.

Lemma step_modalConsistent (c c' : Config) (ev : Event) :
  Forall fromApp (inflight c) -> modalConsistent (store c) -> step c ev = Some c' ->
  modalConsistent (store c').
Proof.
  intros Hfrom Hm Hstep. unfold modalConsistent in *.
  destruct ev as [| window | itemId | itemId | activeIndex | item | | n r].
  - cbn [step] in Hstep. injection Hstep as <-. exact Hm.
  - destruct (handleScroll_cases (store c) window)
      as [(Hl & Hz & Hc & _) | (Hno & _)].
    + rewrite (scroll_starts_fetch c window Hl Hz Hc) in Hstep.
      injection Hstep as <-. exact Hm.
    + rewrite (scroll_does_nothing c window Hno) in Hstep.
      injection Hstep as <-. exact Hm.
  - cbn [step] in Hstep. injection Hstep as <-. exact Hm.
  - cbn [step] in Hstep. injection Hstep as <-. exact Hm.
  - cbn [step] in Hstep. injection Hstep as <-. exact Hm.
  - cbn [step] in Hstep. injection Hstep as <-. reflexivity.
  - cbn [step] in Hstep. injection Hstep as <-. reflexivity.
  - cbn [step] in Hstep.
    destruct (nth_error (inflight c) n) as [p |] eqn:Hn;
      [| unfold settle in Hstep; rewrite Hn in Hstep; discriminate Hstep].
    assert (Hp : fromApp p).
    { apply (proj1 (Forall_forall fromApp (inflight c)) Hfrom).
      eapply nth_error_In; exact Hn. }
    destruct (settle_fromApp c c' n r p Hn Hp Hstep)
      as [(-> & [(_ & Hst & _) | (_ & Hst & _)])
         | [(b & cur & o & -> & _ & Hst & _)
           | [(rd & i & o & -> & _ & Hst & _)
             | (i & o & -> & _ & Hst & _)]]];
      rewrite Hst.
    + exact Hm.
    + exact Hm.
    + destruct (fetched_modal b cur o (store c)) as (-> & -> & _). exact Hm.
    + destruct (marked_frame rd i o (store c)) as (-> & -> & _). exact Hm.
    + destruct (deleted_frame i o (store c)) as (-> & -> & _). exact Hm.
Qed.

Lemma step_keeps_modal (c c' : Config) (ev : Event) :
  Forall fromApp (inflight c) -> step c ev = Some c' ->
  (forall item, ev <> Select item) -> ev <> CloseDetail ->
  selectedItem (store c') = selectedItem (store c)
  /\ isModalOpen (store c') = isModalOpen (store c).
Proof.
  intros Hfrom Hstep Hsel Hclose.
  destruct ev as [| window | itemId | itemId | activeIndex | item | | n r].
  - cbn [step] in Hstep. injection Hstep as <-. split; reflexivity.
  - destruct (handleScroll_cases (store c) window)
      as [(Hl & Hz & Hc & _) | (Hno & _)].
    + rewrite (scroll_starts_fetch c window Hl Hz Hc) in Hstep.
      injection Hstep as <-. split; reflexivity.
    + rewrite (scroll_does_nothing c window Hno) in Hstep.
      injection Hstep as <-. split; reflexivity.
  - cbn [step] in Hstep. injection Hstep as <-. split; reflexivity.
  - cbn [step] in Hstep. injection Hstep as <-. split; reflexivity.
  - cbn [step] in Hstep. injection Hstep as <-. split; reflexivity.
  - exfalso. exact (Hsel item eq_refl).
  - exfalso. exact (Hclose eq_refl).
  - cbn [step] in Hstep.
    destruct (nth_error (inflight c) n) as [p |] eqn:Hn;
      [| unfold settle in Hstep; rewrite Hn in Hstep; discriminate Hstep].
    assert (Hp : fromApp p).
    { apply (proj1 (Forall_forall fromApp (inflight c)) Hfrom).
      eapply nth_error_In; exact Hn. }
    destruct (settle_fromApp c c' n r p Hn Hp Hstep)
      as [(-> & [(_ & Hst & _) | (_ & Hst & _)])
         | [(b & cur & o & -> & _ & Hst & _)
           | [(rd & i & o & -> & _ & Hst & _)
             | (i & o & -> & _ & Hst & _)]]];
      rewrite Hst.
    + split; reflexivity.
    + split; reflexivity.
    + destruct (fetched_modal b cur o (store c)) as (-> & -> & _). split; reflexivity.
    + destruct (marked_frame rd i o (store c)) as (-> & -> & _). split; reflexivity.
    + destruct (deleted_frame i o (store c)) as (-> & -> & _). split; reflexivity.
Qed.

Lemma reachable_modalConsistent (c : Config) :
  reachable c -> modalConsistent (store c).
Proof.
  intros [evs Hrun].
  assert (H : Forall fromApp (inflight c) /\ modalConsistent (store c)).
  { revert Hrun.
    assert (Hinit : Forall fromApp (inflight initialConfig)
                    /\ modalConsistent (store initialConfig)).
    { split; [constructor | reflexivity]. }
    revert Hinit. generalize initialConfig as c0. revert c.
    induction evs as [| ev evs IH]; intros c c0 [Hf Hc] Hrun; cbn [run] in Hrun.
    - injection Hrun as <-. now split.
    - destruct (step c0 ev) as [c1 |] eqn:Hstep; [| discriminate Hrun].
      apply (IH c c1); [| exact Hrun].
      split; [eapply step_fromApp; eassumption
             | eapply step_modalConsistent; eassumption]. }
  exact (proj2 H).
Qed.

(** X12: in every reachable configuration the detail modal is open exactly
    when an item is selected, so an open modal always has an item to show;
    and only selecting an item and closing the modal change either cell:
    every other event, that is mounting, scrolling, clicking an action,
    changing the tab and the settlement of any promise in flight, leaves
    the selected item and the open flag as they were. *)
Theorem modal_open_iff_item_selected (c : Config) :
  reachable c ->
  isModalOpen (store c)
  = match selectedItem (store c) with Some _ => true | None => false end
  /\ forall ev c',
       step c ev = Some c' ->
       (forall item, ev <> Select item) ->
       ev <> CloseDetail ->
       selectedItem (store c') = selectedItem (store c)
       /\ isModalOpen (store c') = isModalOpen (store c).
Proof.
  intros Hreach. split.
  - apply reachable_modalConsistent. exact Hreach.
  - intros ev c' Hstep Hsel Hclose.
    apply (step_keeps_modal c c' ev); try assumption.
    apply reachable_fromApp. exact Hreach.
Qed.

Lemma modal_open_iff_item_selected_witness :
  isModalOpen (store (configAfter [Select (message "m1" "first"); Mount] initialConfig))
  = true
  /\ selectedItem
       (store (configAfter [Select (message "m1" "first"); Mount; TabChange 1]
                           initialConfig))
     = Some (message "m1" "first")
  /\ isModalOpen
       (store (configAfter [Select (message "m1" "first"); Mount; TabChange 1]
                           initialConfig))
     = true.
Proof.
  assert (Hreach : reachable
            (configAfter [Select (message "m1" "first"); Mount] initialConfig)).
  { exists [Select (message "m1" "first"); Mount]. vm_compute. reflexivity. }
  split.
  - exact (proj1 (modal_open_iff_item_selected _ Hreach)).
  - apply (proj2 (modal_open_iff_item_selected _ Hreach) (TabChange 1)).
    + vm_compute. reflexivity.
    + intros item H. discriminate H.
    + intros H. discriminate H.
Defined.

(** ** Rendering *)

(** X13: [renderTextPreview] shows the fallback exactly when the texts are
    missing or empty; otherwise it shows the first text, with a badge only
    when there are further texts, and the badge then counts exactly those,
    so it never reads zero. *)
Theorem renderTextPreview_counts_the_rest (texts : option (list string)) :
  (renderTextPreview texts = NoTextAvailable <-> texts = None \/ texts = Some [])
  /\ forall first rest,
       texts = Some (first :: rest) ->
       exists more,
         renderTextPreview texts = FirstText first more
         /\ (more = None <-> rest = [])
         /\ (forall n, more = Some n -> 0 < n /\ 1 + n = List.length (first :: rest)).
Proof.
  split.
  - destruct texts as [[| first rest] |]; cbn; split; intros H;
      try reflexivity; try discriminate H; try tauto.
    destruct H as [H | H]; discriminate H.
  - intros first rest ->. unfold renderTextPreview.
    cbn [List.length Nat.eqb nth].
    destruct rest as [| second rest].
    + exists None. cbn. repeat split; try reflexivity; intros; discriminate.
    + exists (Some (S (List.length rest))). cbn [List.length Nat.ltb Nat.leb Nat.sub].
      rewrite ?Nat.sub_0_r. split; [reflexivity |].
      split; [split; intros H; discriminate H |].
      intros n Hn. injection Hn as <-. cbn. lia.
Qed.

Lemma renderTextPreview_counts_the_rest_witness :
  exists more,
    renderTextPreview (Some ["one"; "two"; "three"]) = FirstText "one" more
    /\ (forall n, more = Some n -> 0 < n /\ 1 + n = 3).
Proof.
  destruct (proj2 (renderTextPreview_counts_the_rest (Some ["one"; "two"; "three"]))
              "one" ["two"; "three"] eq_refl)
    as (more & Hr & _ & Hn).
  exists more. split; [exact Hr | exact Hn].
Defined.

(** X14: the notes under the lists agree with the scroll trigger.  While
    the "Loading more items..." note is shown, which is on both panes at
    once, and while the active pane shows "No more items to load", no scroll
    evaluation requests anything; the two notes are never shown together;
    and an empty queue never shows "No more items to load". *)
Theorem footers_agree_with_scroll (st : State) :
  (In LoadingMoreItems (needsReviewFooters st)
   <-> In LoadingMoreItems (reviewedFooters st))
  /\ (In LoadingMoreItems (needsReviewFooters st) ->
      ~ In NoMoreItemsToLoad (needsReviewFooters st)
      /\ ~ In NoMoreItemsToLoad (reviewedFooters st)
      /\ forall window, handleScroll st window = Skip)
  /\ (In NoMoreItemsToLoad (needsReviewFooters st) ->
      reviewQueueItems st <> []
      /\ ((activeTab st =? 1)%nat = false ->
          forall window, handleScroll st window = Skip))
  /\ (In NoMoreItemsToLoad (reviewedFooters st) ->
      reviewedItems st <> []
      /\ ((activeTab st =? 1)%nat = true ->
          forall window, handleScroll st window = Skip)).
Proof.
  unfold needsReviewFooters, reviewedFooters.
  assert (Hskip : forall b,
             (activeTab st =? 1)%nat = b -> truthy (queueCursor b st) = false ->
             forall window, handleScroll st window = Skip).
  { intros b Hb Hc window.
    destruct (handleScroll_cases st window) as [(_ & _ & H & _) | (_ & ->)];
      [| reflexivity].
    rewrite Hb in H. congruence. }
  destruct (isLoading st) eqn:Hl; cbn [negb andb app].
  - split; [tauto |]. split; [| split].
    + intros _. split; [| split].
      * intros [H | []]; discriminate H.
      * intros [H | []]; discriminate H.
      * intros window.
        destruct (handleScroll_cases st window) as [(H & _) | (_ & ->)];
          [congruence | reflexivity].
    + intros [H | []]; discriminate H.
    + intros [H | []]; discriminate H.
  - assert (Hnone : forall b : bool,
               ~ In LoadingMoreItems (if b then [NoMoreItemsToLoad] else [])).
    { intros b H. destruct b; [destruct H as [H | []]; discriminate H | destruct H]. }
    split; [split; intros H; exfalso; exact (Hnone _ H) |].
    split; [intros H; exfalso; exact (Hnone _ H) |]. split.
    + destruct (truthy (reviewQueueCursor st)) eqn:Hc; cbn [negb andb];
        [intros [] |].
      destruct (reviewQueueItems st) as [| a l]; cbn; [intros [] |].
      intros _. split; [discriminate |].
      intros Hb. apply (Hskip false Hb). exact Hc.
    + destruct (truthy (reviewedCursor st)) eqn:Hc; cbn [negb andb];
        [intros [] |].
      destruct (reviewedItems st) as [| a l]; cbn; [intros [] |].
      intros _. split; [discriminate |].
      intros Hb. apply (Hskip true Hb). exact Hc.
Qed.

Lemma footers_agree_with_scroll_witness :
  reviewQueueItems duplicatedStore <> []
  /\ ((activeTab duplicatedStore =? 1)%nat = false ->
      forall window, handleScroll duplicatedStore window = Skip).
Proof.
  apply (proj1 (proj2 (proj2 (footers_agree_with_scroll duplicatedStore)))).
  left. reflexivity.
Defined.

(** ** Actions from an earlier render *)


